(** * The canvas of the Paint photo editor

    A shallow embedding of [src/ui/canvas.py] (class [Canvas]) and of the
    commands of [src/ui/menus.py] (class [PhotoEditor]) that act on it.

    - Python values: a float is a binary64 float, an [int] is a [Z], a
      method that raises returns [None] (an exception that leaves a Qt event
      handler ends the application, so nothing is observed after it).
    - Qt values: points, rectangles and images are modelled by what the
      toolkit documents about them; pixel data is a function from
      coordinates to colours.  A Python [int] handed to Qt is converted
      to a C [int], which raises beyond 32 bits: the model converts the
      sizes asked of [scaled] and the coordinates of a mapped point.  The
      sides of the selection rectangle, differences of two such
      coordinates, and the coordinates Qt computes itself stay
      mathematical integers.
    - Three services of the toolkit are left abstract: the filter of
      [Qt.SmoothTransformation], the rasterisation of a pen stroke and the
      scan conversion of a polygon. *)

From Stdlib Require Import ZArith List String Bool Lia Floats DecimalString.
Import ListNotations.
Set Warnings "-inexact-float".
Local Open Scope Z_scope.

(** ** Exceptions *)

Definition bind {A B : Type} (m : option A) (k : A -> option B) : option B :=
  match m with
  | Some a => k a
  | None => None
  end.

Notation "x <- m ;; k" := (bind m (fun x => k))
  (at level 61, m at next level, right associativity).

(** ** Python built-ins on numbers *)

Module Py.

(** [min(a, b)]: the first argument is kept unless the second is strictly
    below it. *)
Definition min (a b : float) : float :=
  if PrimFloat.ltb b a then b else a.

(** [max(a, b)]: the first argument is kept unless the second is strictly
    above it. *)
Definition max (a b : float) : float :=
  if PrimFloat.ltb a b then b else a.

(** The conversion of an [int] that meets a float in an arithmetic
    expression: rounded to nearest even, [OverflowError] beyond the range. *)
Definition float_of_int (z : Z) : option float :=
  let f := SF2Prim (binary_normalize prec emax z 0 false) in
  if PrimFloat.is_infinity f then None else Some f.

(** [int(x)]: truncation towards zero; [ValueError] on a NaN and
    [OverflowError] on an infinity. *)
Definition int (x : float) : option Z :=
  match Prim2SF x with
  | S754_zero _ => Some 0
  | S754_finite s m e =>
      let a := if 0 <=? e then Zpos m * 2 ^ e else Zpos m / 2 ^ (- e) in
      Some (if s then - a else a)
  | S754_infinity _ => None
  | S754_nan => None
  end.

(** [n / s] with an [int] on the left and a float on the right:
    [ZeroDivisionError] when [s] is zero. *)
Definition truediv (n : Z) (s : float) : option float :=
  a <- float_of_int n ;;
  if PrimFloat.eqb s 0%float then None else Some (PrimFloat.div a s).

(** [n * s] with an [int] on the left and a float on the right. *)
Definition mul (n : Z) (s : float) : option float :=
  a <- float_of_int n ;;
  Some (PrimFloat.mul a s).

(** [!=] on floats. *)
Definition ne (a b : float) : bool := negb (PrimFloat.eqb a b).

(** An [int] passed where a method of Qt takes a C [int]: PyQt5 converts
    it and raises [OverflowError] outside the range of 32 bits. *)
Definition c_int (z : Z) : option Z :=
  if (- 2 ^ 31 <=? z) && (z <? 2 ^ 31) then Some z else None.

End Py.

(** ** Qt value classes *)

Module QPoint.

Record t := mk { x : Z; y : Z }.

Definition isNull (p : t) : bool := (x p =? 0) && (y p =? 0).

(** The truth value of a point in a Python condition: PyQt5 gives [QPoint]
    a [__bool__] that is [not isNull()], so the origin counts as false. *)
Definition bool (p : t) : bool := negb (isNull p).

Definition add (p q : t) : t := mk (x p + x q) (y p + y q).
Definition sub (p q : t) : t := mk (x p - x q) (y p - y q).

End QPoint.

(** The truth value of an attribute that holds [None] or a point. *)
Definition truthy (o : option QPoint.t) : bool :=
  match o with
  | Some p => QPoint.bool p
  | None => false
  end.

Module QRect.

(** [QRect(x, y, width, height)]. *)
Record t := mk { x : Z; y : Z; width : Z; height : Z }.

(** [QRect()]. *)
Definition null : t := mk 0 0 0 0.

Definition isNull (r : t) : bool := (width r =? 0) && (height r =? 0).

Definition isValid (r : t) : bool := (0 <? width r) && (0 <? height r).

Definition right (r : t) : Z := x r + width r - 1.
Definition bottom (r : t) : Z := y r + height r - 1.

(** [contains(p)]: a null rectangle contains nothing; otherwise the edges
    count, after swapping the two sides of an axis that runs backwards. *)
Definition contains (r : t) (p : QPoint.t) : bool :=
  if isNull r then false
  else
    let '(l, rr) :=
      if right r <? x r - 1 then (right r, x r) else (x r, right r) in
    let '(tp, b) :=
      if bottom r <? y r - 1 then (bottom r, y r) else (y r, bottom r) in
    negb ((QPoint.x p <? l) || (rr <? QPoint.x p))
    && negb ((QPoint.y p <? tp) || (b <? QPoint.y p)).

End QRect.

(** Colours, as the raster engine composes them: four channels, each a
    byte, the colour channels premultiplied by alpha. *)
Module QRgb.

Record t := mk { alpha : Z; red : Z; green : Z; blue : Z }.

Definition white : t := mk 255 255 255 255.
Definition black : t := mk 255 0 0 0.
Definition transparent : t := mk 0 0 0 0.

(** The bytes of a stored pixel. *)
Definition bytes (p : t) : t :=
  mk (alpha p mod 256) (red p mod 256) (green p mod 256) (blue p mod 256).

(** A pixel of a format without alpha reads as opaque. *)
Definition opaque (p : t) : t := mk 255 (red p) (green p) (blue p).

(** Multiplication of a byte by [a / 255], rounded as Qt does
    ([qt_div_255]). *)
Definition byte_mul (c a : Z) : Z :=
  let v := c * a in
  Z.shiftr (v + Z.shiftr v 8 + 128) 8.

Definition scale (p : t) (a : Z) : t :=
  mk (byte_mul (alpha p) a) (byte_mul (red p) a)
     (byte_mul (green p) a) (byte_mul (blue p) a).

Definition plus (p q : t) : t :=
  mk (alpha p + alpha q) (red p + red q) (green p + green q) (blue p + blue q).

End QRgb.

(** A colour whose channels are bytes. *)
Definition is_bytes (p : QRgb.t) : Prop :=
  0 <= QRgb.alpha p < 256 /\ 0 <= QRgb.red p < 256
  /\ 0 <= QRgb.green p < 256 /\ 0 <= QRgb.blue p < 256.

(** [QPainter.CompositionMode]: the three modes the program uses. *)
Inductive CompositionMode :=
| CompositionMode_SourceOver
| CompositionMode_Source
| CompositionMode_DestinationIn.

(** The colour left in the destination by one source pixel. *)
Definition compose (m : CompositionMode) (s d : QRgb.t) : QRgb.t :=
  match m with
  | CompositionMode_SourceOver => QRgb.plus s (QRgb.scale d (255 - QRgb.alpha s))
  | CompositionMode_Source => s
  | CompositionMode_DestinationIn => QRgb.scale d (QRgb.alpha s)
  end.

Inductive Format := Format_Invalid | Format_RGB32 | Format_ARGB32.

Module QImage.

Record t := mk {
  width : Z;
  height : Z;
  format : Format;
  data : Z -> Z -> QRgb.t
}.

(** [QImage()]. *)
Definition null : t := mk 0 0 Format_Invalid (fun _ _ => QRgb.transparent).

Definition isNull (i : t) : bool := (width i <=? 0) || (height i <=? 0).

Definition inside (i : t) (px py : Z) : bool :=
  (0 <=? px) && (px <? width i) && (0 <=? py) && (py <? height i).

(** What a format keeps of a colour written to it. *)
Definition store (f : Format) (p : QRgb.t) : QRgb.t :=
  match f with
  | Format_RGB32 => QRgb.opaque p
  | _ => p
  end.

(** [pixel(x, y)], for a position inside the image. *)
Definition pixel (i : t) (px py : Z) : QRgb.t :=
  store (format i) (QRgb.bytes (data i px py)).

(** [QImage(w, h, format)] followed by [fill(colour)]. *)
Definition filled (w h : Z) (f : Format) (c : QRgb.t) : t :=
  if (w <=? 0) || (h <=? 0) then null else mk w h f (fun _ _ => store f c).

(** [fill(colour)]. *)
Definition fill (i : t) (c : QRgb.t) : t :=
  mk (width i) (height i) (format i) (fun _ _ => store (format i) c).

(** [copy(rect)]: a null rectangle stands for the whole image; what the
    rectangle covers outside the image is filled with zeros. *)
Definition copy (i : t) (r : QRect.t) : t :=
  if isNull i then null
  else if QRect.isNull r then i
  else if (QRect.width r <=? 0) || (QRect.height r <=? 0) then null
  else
    mk (QRect.width r) (QRect.height r) (format i)
       (fun px py =>
          let sx := QRect.x r + px in
          let sy := QRect.y r + py in
          if inside i sx sy then pixel i sx sy else QRgb.transparent).

(** [mirrored(horizontal, vertical)]. *)
Definition mirrored (i : t) (horizontal vertical : bool) : t :=
  mk (width i) (height i) (format i)
     (fun px py =>
        pixel i (if horizontal then width i - 1 - px else px)
                (if vertical then height i - 1 - py else py)).

(** [transformed(QTransform().rotate(90))]: a quarter turn clockwise. *)
Definition rotated90 (i : t) : t :=
  mk (height i) (width i) (format i)
     (fun px py => pixel i py (height i - 1 - px)).

(** [transformed(QTransform().rotate(-90))]: a quarter turn
    counterclockwise. *)
Definition rotated270 (i : t) : t :=
  mk (height i) (width i) (format i)
     (fun px py => pixel i (width i - 1 - py) px).

(** [QSize.scaled(w, h, Qt.KeepAspectRatio)] on the size of the image,
    each side then raised to at least one pixel. *)
Definition scaled_size (i : t) (w h : Z) : Z * Z :=
  let '(sw, sh) :=
    if (width i =? 0) || (height i =? 0) then (w, h)
    else
      let rw := Z.quot (h * width i) (height i) in
      if rw <=? w then (rw, h) else (w, Z.quot (w * height i) (width i)) in
  (Z.max sw 1, Z.max sh 1).

(** [scaled(w, h, Qt.KeepAspectRatio, mode)]; [filter] gives the colours
    of the resampled image. *)
Definition scaled (filter : t -> Z -> Z -> Z -> Z -> QRgb.t)
  (i : t) (w h : Z) : t :=
  if isNull i then null
  else if (w <? 1) || (h <? 1) then null
  else
    let '(nw, nh) := scaled_size i w h in
    if (nw =? width i) && (nh =? height i) then i
    else mk nw nh (format i) (filter i nw nh).

(** [QPainter(dst).drawImage(pos, src)] under a composition mode. *)
Definition drawImage (m : CompositionMode) (dst : t) (pos : QPoint.t) (src : t)
  : t :=
  mk (width dst) (height dst) (format dst)
     (fun px py =>
        let sx := px - QPoint.x pos in
        let sy := py - QPoint.y pos in
        if inside src sx sy
        then store (format dst) (compose m (pixel src sx sy) (pixel dst px py))
        else pixel dst px py).

(** [QPainter(dst).fillRect(rect, colour)] under a composition mode. *)
Definition fillRect (m : CompositionMode) (dst : t) (r : QRect.t) (c : QRgb.t)
  : t :=
  mk (width dst) (height dst) (format dst)
     (fun px py =>
        if (QRect.x r <=? px) && (px <? QRect.x r + QRect.width r)
           && (QRect.y r <=? py) && (py <? QRect.y r + QRect.height r)
        then store (format dst) (compose m c (pixel dst px py))
        else pixel dst px py).

(** [QPainter(dst).fillPath(path, colour)]; [cover] tells the pixels the
    raster engine fills for the path. *)
Definition fillPath (dst : t) (cover : Z -> Z -> bool) (c : QRgb.t) : t :=
  mk (width dst) (height dst) (format dst)
     (fun px py =>
        if cover px py
        then store (format dst)
               (compose CompositionMode_SourceOver c (pixel dst px py))
        else pixel dst px py).

End QImage.

(** ** Events *)

Inductive MouseButton := LeftButton | RightButton | MiddleButton.

(** A mouse event: [event.pos()] in widget coordinates, [event.button()]. *)
Record QMouseEvent := mkMouse { pos : QPoint.t; button : MouseButton }.

Inductive GestureState :=
| NoGesture
| GestureStarted
| GestureUpdated
| GestureFinished
| GestureCanceled.

(** A pinch gesture: [gesture.state()], [gesture.scaleFactor()]. *)
Record QPinchGesture := mkPinch { state : GestureState; scaleFactor : float }.

(** The three services of the toolkit that stay abstract: the colours
    [Qt.SmoothTransformation] gives an image resampled to a new size, the
    image left by [drawLine] with a round pen of a colour and width, and
    the pixels the raster engine fills, without antialiasing, for the
    polygon through the points of a path ([QPainterPath.addPolygon], closed
    from the last point back to the first, odd-even rule). *)
Record Toolkit := mkToolkit {
  smooth : QImage.t -> Z -> Z -> Z -> Z -> QRgb.t;
  drawLine : QImage.t -> QRgb.t -> Z -> QPoint.t -> QPoint.t -> QImage.t;
  fills : list QPoint.t -> Z -> Z -> bool
}.

(** ** The state of a [Canvas] *)

(** The attributes [Canvas.__init__] creates, with the widget's size
    ([self.width()], [self.height()]). *)
Record Canvas := mkCanvas {
  width : Z;
  height : Z;
  image : QImage.t;
  original_image : QImage.t;
  current_scale : float;
  offset_x : Z;
  offset_y : Z;
  tool : option string;
  selection_start : option QPoint.t;
  selection_path : list QPoint.t;
  drawing_selection : bool;
  selected_area : option QImage.t;
  is_moving_selection : bool;
  selection_offset : QPoint.t;
  drawing : bool;
  last_point : QPoint.t;
  brush_color : QRgb.t;
  brush_size : Z;
  eraser_size : Z
}.

(** Assignment to one attribute. *)

Definition with_width (c : Canvas) (v : Z) : Canvas :=
  mkCanvas v (height c) (image c) (original_image c) (current_scale c)
    (offset_x c) (offset_y c) (tool c) (selection_start c) (selection_path
    c) (drawing_selection c) (selected_area c) (is_moving_selection c)
    (selection_offset c) (drawing c) (last_point c) (brush_color c)
    (brush_size c) (eraser_size c).

Definition with_height (c : Canvas) (v : Z) : Canvas :=
  mkCanvas (width c) v (image c) (original_image c) (current_scale c)
    (offset_x c) (offset_y c) (tool c) (selection_start c) (selection_path
    c) (drawing_selection c) (selected_area c) (is_moving_selection c)
    (selection_offset c) (drawing c) (last_point c) (brush_color c)
    (brush_size c) (eraser_size c).

Definition with_image (c : Canvas) (v : QImage.t) : Canvas :=
  mkCanvas (width c) (height c) v (original_image c) (current_scale c)
    (offset_x c) (offset_y c) (tool c) (selection_start c) (selection_path
    c) (drawing_selection c) (selected_area c) (is_moving_selection c)
    (selection_offset c) (drawing c) (last_point c) (brush_color c)
    (brush_size c) (eraser_size c).

Definition with_original_image (c : Canvas) (v : QImage.t) : Canvas :=
  mkCanvas (width c) (height c) (image c) v (current_scale c) (offset_x c)
    (offset_y c) (tool c) (selection_start c) (selection_path c)
    (drawing_selection c) (selected_area c) (is_moving_selection c)
    (selection_offset c) (drawing c) (last_point c) (brush_color c)
    (brush_size c) (eraser_size c).

Definition with_current_scale (c : Canvas) (v : float) : Canvas :=
  mkCanvas (width c) (height c) (image c) (original_image c) v (offset_x c)
    (offset_y c) (tool c) (selection_start c) (selection_path c)
    (drawing_selection c) (selected_area c) (is_moving_selection c)
    (selection_offset c) (drawing c) (last_point c) (brush_color c)
    (brush_size c) (eraser_size c).

Definition with_offset_x (c : Canvas) (v : Z) : Canvas :=
  mkCanvas (width c) (height c) (image c) (original_image c) (current_scale
    c) v (offset_y c) (tool c) (selection_start c) (selection_path c)
    (drawing_selection c) (selected_area c) (is_moving_selection c)
    (selection_offset c) (drawing c) (last_point c) (brush_color c)
    (brush_size c) (eraser_size c).

Definition with_offset_y (c : Canvas) (v : Z) : Canvas :=
  mkCanvas (width c) (height c) (image c) (original_image c) (current_scale
    c) (offset_x c) v (tool c) (selection_start c) (selection_path c)
    (drawing_selection c) (selected_area c) (is_moving_selection c)
    (selection_offset c) (drawing c) (last_point c) (brush_color c)
    (brush_size c) (eraser_size c).

Definition with_tool (c : Canvas) (v : option string) : Canvas :=
  mkCanvas (width c) (height c) (image c) (original_image c) (current_scale
    c) (offset_x c) (offset_y c) v (selection_start c) (selection_path c)
    (drawing_selection c) (selected_area c) (is_moving_selection c)
    (selection_offset c) (drawing c) (last_point c) (brush_color c)
    (brush_size c) (eraser_size c).

Definition with_selection_start (c : Canvas) (v : option QPoint.t) : Canvas :=
  mkCanvas (width c) (height c) (image c) (original_image c) (current_scale
    c) (offset_x c) (offset_y c) (tool c) v (selection_path c)
    (drawing_selection c) (selected_area c) (is_moving_selection c)
    (selection_offset c) (drawing c) (last_point c) (brush_color c)
    (brush_size c) (eraser_size c).

Definition with_selection_path (c : Canvas) (v : list QPoint.t) : Canvas :=
  mkCanvas (width c) (height c) (image c) (original_image c) (current_scale
    c) (offset_x c) (offset_y c) (tool c) (selection_start c) v
    (drawing_selection c) (selected_area c) (is_moving_selection c)
    (selection_offset c) (drawing c) (last_point c) (brush_color c)
    (brush_size c) (eraser_size c).

Definition with_drawing_selection (c : Canvas) (v : bool) : Canvas :=
  mkCanvas (width c) (height c) (image c) (original_image c) (current_scale
    c) (offset_x c) (offset_y c) (tool c) (selection_start c)
    (selection_path c) v (selected_area c) (is_moving_selection c)
    (selection_offset c) (drawing c) (last_point c) (brush_color c)
    (brush_size c) (eraser_size c).

Definition with_selected_area (c : Canvas) (v : option QImage.t) : Canvas :=
  mkCanvas (width c) (height c) (image c) (original_image c) (current_scale
    c) (offset_x c) (offset_y c) (tool c) (selection_start c)
    (selection_path c) (drawing_selection c) v (is_moving_selection c)
    (selection_offset c) (drawing c) (last_point c) (brush_color c)
    (brush_size c) (eraser_size c).

Definition with_is_moving_selection (c : Canvas) (v : bool) : Canvas :=
  mkCanvas (width c) (height c) (image c) (original_image c) (current_scale
    c) (offset_x c) (offset_y c) (tool c) (selection_start c)
    (selection_path c) (drawing_selection c) (selected_area c) v
    (selection_offset c) (drawing c) (last_point c) (brush_color c)
    (brush_size c) (eraser_size c).

Definition with_selection_offset (c : Canvas) (v : QPoint.t) : Canvas :=
  mkCanvas (width c) (height c) (image c) (original_image c) (current_scale
    c) (offset_x c) (offset_y c) (tool c) (selection_start c)
    (selection_path c) (drawing_selection c) (selected_area c)
    (is_moving_selection c) v (drawing c) (last_point c) (brush_color c)
    (brush_size c) (eraser_size c).

Definition with_drawing (c : Canvas) (v : bool) : Canvas :=
  mkCanvas (width c) (height c) (image c) (original_image c) (current_scale
    c) (offset_x c) (offset_y c) (tool c) (selection_start c)
    (selection_path c) (drawing_selection c) (selected_area c)
    (is_moving_selection c) (selection_offset c) v (last_point c)
    (brush_color c) (brush_size c) (eraser_size c).

Definition with_last_point (c : Canvas) (v : QPoint.t) : Canvas :=
  mkCanvas (width c) (height c) (image c) (original_image c) (current_scale
    c) (offset_x c) (offset_y c) (tool c) (selection_start c)
    (selection_path c) (drawing_selection c) (selected_area c)
    (is_moving_selection c) (selection_offset c) (drawing c) v (brush_color
    c) (brush_size c) (eraser_size c).

(** ** The process around the canvas *)

(** The canvas with what its methods reach outside it: the image on the
    application's clipboard (a null image when it holds none), the messages
    sent to the status bar and the warnings shown in message boxes, oldest
    first. *)
Record App := mkApp {
  canvas : Canvas;
  clipboard : QImage.t;
  status : list string;
  warnings : list string
}.

Definition with_canvas (a : App) (c : Canvas) : App :=
  mkApp c (clipboard a) (status a) (warnings a).

Definition with_clipboard (a : App) (i : QImage.t) : App :=
  mkApp (canvas a) i (status a) (warnings a).

(** [self.status_message.emit(msg)] and [self.statusBar().showMessage(msg)]:
    the signal is connected to the status bar. *)
Definition emit (msg : string) (a : App) : App :=
  mkApp (canvas a) (clipboard a) (status a ++ [msg]) (warnings a).

(** [QMessageBox.warning(self, "Error", msg)]. *)
Definition warning (msg : string) (a : App) : App :=
  mkApp (canvas a) (clipboard a) (status a) (warnings a ++ [msg]).

(** ** Conditions on attributes *)

(** [self.tool == name]. *)
Definition tool_is (c : Canvas) (name : string) : bool :=
  match tool c with
  | Some s => String.eqb s name
  | None => false
  end.

(** [self.tool in names]. *)
Definition tool_in (c : Canvas) (names : list string) : bool :=
  existsb (tool_is c) names.

(** [self.tool is None]. *)
Definition tool_is_None (c : Canvas) : bool :=
  match tool c with
  | Some _ => false
  | None => true
  end.

(** An empty list is false in a condition. *)
Definition is_empty {A : Type} (l : list A) : bool :=
  match l with
  | [] => true
  | _ :: _ => false
  end.

(** [self.selected_area] in a condition: [None] is false, an image is
    true ([QImage] has no truth value of its own). *)
Definition has_area (c : Canvas) : bool :=
  match selected_area c with
  | Some _ => true
  | None => false
  end.

(** ** [Canvas.__init__] *)

Definition init_canvas : Canvas :=
  let img := QImage.filled 800 600 Format_RGB32 QRgb.white in
  mkCanvas 800 600 img img 1%float 0 0 None None [] false None false
    (QPoint.mk 0 0) false (QPoint.mk 0 0) QRgb.black 3 10.

Definition init_app : App := mkApp init_canvas QImage.null [] [].

(** ** Methods that do not draw *)

(** [Canvas.set_tool]. *)
Definition set_tool (c : Canvas) (t : option string) : Canvas :=
  let c := with_tool c t in
  let c := with_selection_start c None in
  let c := with_selection_path c [] in
  let c := with_drawing_selection c false in
  with_selected_area c None.

(** [Canvas.get_selection_rect]. *)
Definition get_selection_rect (c : Canvas) : QRect.t :=
  if negb (truthy (selection_start c)) || is_empty (selection_path c)
  then QRect.null
  else
    match selection_start c with
    | Some start =>
        let end_ := last (selection_path c) start in
        let x1 := Z.min (QPoint.x start) (QPoint.x end_) in
        let y1 := Z.min (QPoint.y start) (QPoint.y end_) in
        let x2 := Z.max (QPoint.x start) (QPoint.x end_) in
        let y2 := Z.max (QPoint.y start) (QPoint.y end_) in
        QRect.mk x1 y1 (x2 - x1) (y2 - y1)
    | None => QRect.null
    end.

(** [Canvas.map_to_scaled_image]. *)
Definition map_to_scaled_image (c : Canvas) (p : QPoint.t) : option QPoint.t :=
  x <- Py.truediv (QPoint.x p - offset_x c) (current_scale c) ;;
  y <- Py.truediv (QPoint.y p - offset_y c) (current_scale c) ;;
  ix <- Py.int x ;;
  iy <- Py.int y ;;
  ix <- Py.c_int ix ;;
  iy <- Py.c_int iy ;;
  Some (QPoint.mk ix iy).

(** [Canvas.map_from_scaled_image]. *)
Definition map_from_scaled_image (c : Canvas) (p : QPoint.t) : option QPoint.t :=
  fx <- Py.mul (QPoint.x p) (current_scale c) ;;
  ox <- Py.float_of_int (offset_x c) ;;
  ix <- Py.int (PrimFloat.add fx ox) ;;
  fy <- Py.mul (QPoint.y p) (current_scale c) ;;
  oy <- Py.float_of_int (offset_y c) ;;
  iy <- Py.int (PrimFloat.add fy oy) ;;
  ix <- Py.c_int ix ;;
  iy <- Py.c_int iy ;;
  Some (QPoint.mk ix iy).

(** The part of [Canvas.paintEvent] that changes the state: the offsets
    that centre the display image. *)
Definition paintEvent (c : Canvas) : Canvas :=
  let c := with_offset_x c (Z.max ((width c - QImage.width (image c)) / 2) 0) in
  with_offset_y c (Z.max ((height c - QImage.height (image c)) / 2) 0).

Section Toolkit.

Variable tk : Toolkit.

(** [Canvas.extract_selection]. *)
Definition extract_selection (a : App) : App :=
  let c := canvas a in
  if is_empty (selection_path c) then emit "No selection to extract." a
  else
    let orig := original_image c in
    let c' :=
      if tool_in c ["lasso"; "polygon"]%string then
        let blank :=
          QImage.filled (QImage.width orig) (QImage.height orig)
            Format_ARGB32 QRgb.transparent in
        let mask :=
          QImage.fillPath blank (fills tk (selection_path c)) QRgb.white in
        let area :=
          QImage.drawImage CompositionMode_Source blank (QPoint.mk 0 0) orig in
        let area :=
          QImage.drawImage CompositionMode_DestinationIn area (QPoint.mk 0 0)
            mask in
        with_selected_area c (Some area)
      else if tool_is c "rect" && truthy (selection_start c) then
        let rect := get_selection_rect c in
        if QRect.isValid rect
        then with_selected_area c (Some (QImage.copy orig rect))
        else c
      else c in
    emit "Selection extracted." (with_canvas a c').

(** [Canvas.copy_selection]. *)
Definition copy_selection (a : App) : App :=
  if is_empty (selection_path (canvas a)) then emit "No selection to copy." a
  else
    let a := extract_selection a in
    match selected_area (canvas a) with
    | Some area => emit "Selection copied to clipboard." (with_clipboard a area)
    | None => a
    end.

(** [position or QPoint(0, 0)]: the default also replaces a point that
    counts as false. *)
Definition or_origin (position : option QPoint.t) : QPoint.t :=
  match position with
  | Some p => if QPoint.bool p then p else QPoint.mk 0 0
  | None => QPoint.mk 0 0
  end.

(** The two sizes asked of [scaled] for the display image:
    [int(self.original_image.width() * self.current_scale)] and the same of
    the height, as the call receives them: each is converted to a C
    [int]. *)
Definition display_size (c : Canvas) : option (Z * Z) :=
  fw <- Py.mul (QImage.width (original_image c)) (current_scale c) ;;
  w <- Py.int fw ;;
  fh <- Py.mul (QImage.height (original_image c)) (current_scale c) ;;
  h <- Py.int fh ;;
  w <- Py.c_int w ;;
  h <- Py.c_int h ;;
  Some (w, h).

(** The display image of the current scale:
    [self.original_image.scaled(int(width * scale), int(height * scale),
    Qt.KeepAspectRatio, Qt.SmoothTransformation)]. *)
Definition rescaled (c : Canvas) : option QImage.t :=
  size <- display_size c ;;
  Some (QImage.scaled (smooth tk) (original_image c) (fst size) (snd size)).

(** [Canvas.update_canvas_scale]. *)
Definition update_canvas_scale (c : Canvas) : option Canvas :=
  img <- rescaled c ;;
  Some (with_image c img).

(** [Canvas.paste_selection]; [position] is [None] when the argument is
    left out. *)
Definition paste_selection (a : App) (position : option QPoint.t) : option App :=
  let c := canvas a in
  let clipboard_image := clipboard a in
  if QImage.isNull clipboard_image then Some (emit "Clipboard is empty." a)
  else
    let paste_position := or_origin position in
    let c :=
      with_original_image c
        (QImage.drawImage CompositionMode_SourceOver (original_image c)
           paste_position clipboard_image) in
    img <- rescaled c ;;
    let c := with_image c img in
    let c := with_selection_start c (Some paste_position) in
    let c :=
      with_selection_path c
        [paste_position;
         QPoint.add paste_position
           (QPoint.mk (QImage.width clipboard_image)
              (QImage.height clipboard_image))] in
    let c := with_selected_area c (Some clipboard_image) in
    Some (emit "Image pasted with selection." (with_canvas a c)).

(** [Canvas.cut_selection]. *)
Definition cut_selection (a : App) : option App :=
  if is_empty (selection_path (canvas a))
  then Some (emit "No selection to cut." a)
  else
    let a := copy_selection a in
    let c := canvas a in
    let orig := original_image c in
    let painted :=
      if tool_is c "rect" && (Z.of_nat (List.length (selection_path c)) =? 2) then
        QImage.fillRect CompositionMode_Source orig (get_selection_rect c)
          QRgb.white
      else if tool_in c ["lasso"; "polygon"]%string then
        let blank :=
          QImage.filled (QImage.width orig) (QImage.height orig)
            Format_ARGB32 QRgb.transparent in
        let mask :=
          QImage.fillPath blank (fills tk (selection_path c)) QRgb.white in
        QImage.drawImage CompositionMode_SourceOver orig (QPoint.mk 0 0) mask
      else orig in
    let c := with_original_image c painted in
    img <- rescaled c ;;
    let c := with_image c img in
    let c := with_selection_path c [] in
    let c := with_selected_area c None in
    Some (emit "Selection cut." (with_canvas a c)).

(** [Canvas.clear_canvas]. *)
Definition clear_canvas (c : Canvas) : Canvas :=
  let c := with_image c (QImage.fill (image c) QRgb.white) in
  let c := with_original_image c (image c) in
  let c := with_selected_area c None in
  let c := with_selection_start c None in
  let c := with_selection_path c [] in
  let c := with_drawing_selection c false in
  with_is_moving_selection c false.

(** The list comprehension of [finalize_selection]: every point mapped,
    in order. *)
Fixpoint map_path (c : Canvas) (path : list QPoint.t) : option (list QPoint.t) :=
  match path with
  | [] => Some []
  | p :: rest =>
      q <- map_to_scaled_image c p ;;
      qs <- map_path c rest ;;
      Some (q :: qs)
  end.

(** [Canvas.finalize_selection]. *)
Definition finalize_selection (a : App) : option App :=
  let c := canvas a in
  if is_empty (selection_path c) then Some a
  else
    path <- map_path c (selection_path c) ;;
    Some (extract_selection (with_canvas a (with_selection_path c path))).

(** ** Mouse events *)

(** The body of [Canvas.mousePressEvent] under its test on the mapped
    point. *)
Definition press_at (c : Canvas) (p : QPoint.t) (b : MouseButton)
  : option Canvas :=
  c <-
    (if has_area c && QRect.contains (get_selection_rect c) p then
       match selection_start c with
       | Some start =>
           let c := with_is_moving_selection c true in
           Some (with_selection_offset c (QPoint.sub p start))
       | None => None
       end
     else
       let c := with_is_moving_selection c false in
       let c := with_selection_start c None in
       let c := with_selection_path c [] in
       Some (with_selected_area c None)) ;;
  if tool_is c "rect" then
    let c := with_selection_start c (Some p) in
    Some (with_selection_path c [p])
  else if tool_in c ["lasso"; "polygon"]%string then
    let c := if drawing_selection c then c else with_selection_path c [p] in
    Some (with_drawing_selection c true)
  else if tool_is_None c
          && match b with LeftButton => true | _ => false end then
    let c := with_drawing c true in
    Some (with_last_point c p)
  else if tool_is c "erase" then
    let c := with_drawing c true in
    Some (with_last_point c p)
  else Some c.

(** [Canvas.mousePressEvent]. *)
Definition mousePressEvent (c : Canvas) (event : QMouseEvent) : option Canvas :=
  p <- map_to_scaled_image c (pos event) ;;
  if negb (QPoint.x p =? -1) && negb (QPoint.y p =? -1)
  then press_at c p (button event)
  else Some c.

(** [Canvas.mouseMoveEvent]. *)
Definition mouseMoveEvent (c : Canvas) (event : QMouseEvent) : option Canvas :=
  p <- map_to_scaled_image c (pos event) ;;
  if is_moving_selection c && has_area c then
    Some (with_selection_start c (Some (QPoint.sub p (selection_offset c))))
  else if tool_is c "rect" && truthy (selection_start c) then
    match selection_start c with
    | Some start => Some (with_selection_path c [start; p])
    | None => None
    end
  else if tool_in c ["lasso"; "polygon"]%string && drawing_selection c then
    Some (with_selection_path c (selection_path c ++ [p]))
  else if tool_is_None c && drawing c then
    let c :=
      with_original_image c
        (drawLine tk (original_image c) (brush_color c) (brush_size c)
           (last_point c) p) in
    let c := with_last_point c p in
    img <- rescaled c ;;
    Some (with_image c img)
  else if tool_is c "erase" && drawing c then
    let c :=
      with_original_image c
        (drawLine tk (original_image c) QRgb.white (eraser_size c)
           (last_point c) p) in
    let c := with_last_point c p in
    img <- rescaled c ;;
    Some (with_image c img)
  else Some c.

(** [Canvas.mouseReleaseEvent]. *)
Definition mouseReleaseEvent (a : App) : option App :=
  let c := canvas a in
  if is_moving_selection c then
    Some (with_canvas a (with_is_moving_selection c false))
  else if tool_in c ["rect"; "lasso"; "polygon"]%string then
    finalize_selection (with_canvas a (with_drawing_selection c false))
  else if tool_is c "erase" || tool_is_None c then
    Some (with_canvas a (with_drawing c false))
  else Some a.

(** ** Zoom *)

(** [Canvas.handle_pinch]. *)
Definition handle_pinch (c : Canvas) (gesture : QPinchGesture) : option Canvas :=
  if QImage.isNull (original_image c) then Some c
  else
    match state gesture with
    | GestureStarted | GestureUpdated =>
        let scale_factor := scaleFactor gesture in
        let new_scale := PrimFloat.mul (current_scale c) scale_factor in
        let new_scale := Py.max 0.1 (Py.min 5.0 new_scale) in
        if Py.ne new_scale (current_scale c) then
          let c := with_current_scale c new_scale in
          img <- rescaled c ;;
          Some (with_image c img)
        else Some c
    | _ => Some c
    end.

(** [PhotoEditor.zoom_in]. *)
Definition zoom_in (a : App) : option App :=
  let c := canvas a in
  let c := with_current_scale c (PrimFloat.mul (current_scale c) 1.2) in
  c <- update_canvas_scale c ;;
  Some (emit "Zoomed In" (with_canvas a c)).

(** [PhotoEditor.zoom_out]. *)
Definition zoom_out (a : App) : option App :=
  let c := canvas a in
  let c := with_current_scale c (PrimFloat.mul (current_scale c) 0.8) in
  c <- update_canvas_scale c ;;
  Some (emit "Zoomed Out" (with_canvas a c)).

End Toolkit.

(** ** Whole-image commands of [PhotoEditor] *)

(** [PhotoEditor.crop_image]. *)
Definition crop_image (a : App) : App :=
  let c := canvas a in
  if QImage.isNull (image c) then warning "No image to crop." a
  else
    let img := image c in
    let w := QImage.width img in
    let h := QImage.height img in
    let crop_size := Z.min w h in
    let x := (w - crop_size) / 2 in
    let y := (h - crop_size) / 2 in
    let cropped := QImage.copy img (QRect.mk x y crop_size crop_size) in
    emit "Image cropped to center." (with_canvas a (with_image c cropped)).

(** The decimal form of an [int] in an f-string. *)
Definition str (z : Z) : string := NilZero.string_of_int (Z.to_int z).

(** [PhotoEditor.resize_image]; each answer is what [QInputDialog.getInt]
    returned, [None] when the dialog was cancelled. *)
Definition resize_image (a : App) (width_answer height_answer : option Z) : App :=
  let c := canvas a in
  if QImage.isNull (image c) then warning "No image to resize." a
  else
    match width_answer with
    | None => a
    | Some new_width =>
        match height_answer with
        | None => a
        | Some new_height =>
            let new_image :=
              QImage.filled new_width new_height Format_RGB32 QRgb.white in
            let x_offset := (new_width - QImage.width (image c)) / 2 in
            let y_offset := (new_height - QImage.height (image c)) / 2 in
            let new_image :=
              QImage.drawImage CompositionMode_SourceOver new_image
                (QPoint.mk x_offset y_offset) (image c) in
            let c := with_width c new_width in
            let c := with_height c new_height in
            let c := with_image c new_image in
            emit ("Canvas resized to " ++ str new_width ++ "x"
                  ++ str new_height ++ ".")
              (with_canvas a c)
        end
    end.

(** [PhotoEditor.rotate_image_90]. *)
Definition rotate_image_90 (a : App) : App :=
  let c := canvas a in
  if QImage.isNull (image c) then warning "No image to rotate." a
  else with_canvas a (with_image c (QImage.rotated90 (image c))).

(** [PhotoEditor.rotate_image_90_cc]. *)
Definition rotate_image_90_cc (a : App) : App :=
  let c := canvas a in
  if QImage.isNull (image c) then warning "No image to rotate." a
  else with_canvas a (with_image c (QImage.rotated270 (image c))).

(** [PhotoEditor.flip_vertical]. *)
Definition flip_vertical (a : App) : App :=
  let c := canvas a in
  if QImage.isNull (image c) then warning "No image to flip." a
  else with_canvas a (with_image c (QImage.mirrored (image c) false true)).

(** [PhotoEditor.flip_horizontal]. *)
Definition flip_horizontal (a : App) : App :=
  let c := canvas a in
  if QImage.isNull (image c) then warning "No image to flip." a
  else with_canvas a (with_image c (QImage.mirrored (image c) true false)).

(** The whole-image commands of the Image menu. *)
Inductive Transform :=
| Crop
| Resize (width_answer height_answer : option Z)
| Rotate90
| Rotate90cc
| FlipVertical
| FlipHorizontal.

Definition transform_command (t : Transform) (a : App) : App :=
  match t with
  | Crop => crop_image a
  | Resize w h => resize_image a w h
  | Rotate90 => rotate_image_90 a
  | Rotate90cc => rotate_image_90_cc a
  | FlipVertical => flip_vertical a
  | FlipHorizontal => flip_horizontal a
  end.

(** The image each command computes from the image it reads. *)
Definition transformed (t : Transform) (img : QImage.t) : QImage.t :=
  match t with
  | Crop =>
      let crop_size := Z.min (QImage.width img) (QImage.height img) in
      QImage.copy img
        (QRect.mk ((QImage.width img - crop_size) / 2)
           ((QImage.height img - crop_size) / 2) crop_size crop_size)
  | Resize (Some w) (Some h) =>
      QImage.drawImage CompositionMode_SourceOver
        (QImage.filled w h Format_RGB32 QRgb.white)
        (QPoint.mk ((w - QImage.width img) / 2) ((h - QImage.height img) / 2))
        img
  | Resize _ _ => img
  | Rotate90 => QImage.rotated90 img
  | Rotate90cc => QImage.rotated270 img
  | FlipVertical => QImage.mirrored img false true
  | FlipHorizontal => QImage.mirrored img true false
  end.

(** ** File and clipboard commands of [PhotoEditor] *)

(** [PhotoEditor.new_file]. *)
Definition new_file (a : App) : App :=
  emit "New file created." (with_canvas a (clear_canvas (canvas a))).

(** [PhotoEditor.display_image]; [loaded] is the image [QImage(file_path)]
    decodes, null when the file cannot be read. *)
Definition display_image (tk : Toolkit) (a : App) (file_path : string)
  (loaded : QImage.t) : App :=
  if QImage.isNull loaded then warning "Failed to load the image." a
  else
    let c := canvas a in
    let c := with_original_image c (QImage.copy loaded QRect.null) in
    let c := with_current_scale c 1%float in
    let c :=
      with_image c
        (QImage.scaled (smooth tk) (original_image c) (width c) (height c)) in
    let c := with_width c (QImage.width loaded) in
    let c := with_height c (QImage.height loaded) in
    emit ("Loaded image: " ++ file_path) (with_canvas a c).

(** [PhotoEditor.copy_image]. *)
Definition copy_image (a : App) : App :=
  if QImage.isNull (image (canvas a)) then warning "No image to copy." a
  else emit "Image copied to clipboard." (with_clipboard a (image (canvas a))).

(** [PhotoEditor.paste_image]. *)
Definition paste_image (tk : Toolkit) (a : App) : App :=
  let img := clipboard a in
  if QImage.isNull img
  then warning "Clipboard is empty or doesn't contain an image." a
  else
    let c := canvas a in
    let c :=
      with_image c (QImage.scaled (smooth tk) img (width c) (height c)) in
    emit "Image pasted from clipboard." (with_canvas a c).

(** [PhotoEditor.cut_image]; the clipboard keeps the pixels it was given
    when the display image is filled afterwards (images share their data
    until one is written to). *)
Definition cut_image (a : App) : App :=
  if QImage.isNull (image (canvas a)) then warning "No image to cut." a
  else
    let a := copy_image a in
    let c := canvas a in
    let c := with_image c (QImage.fill (image c) QRgb.white) in
    emit "Image cut and cleared." (with_canvas a c).

(** [PhotoEditor.reset_zoom]. *)
Definition reset_zoom (tk : Toolkit) (a : App) : App :=
  let c := canvas a in
  if QImage.isNull (image c) then a
  else
    let c := with_current_scale c 1%float in
    let c :=
      with_image c
        (QImage.scaled (smooth tk) (image c) (width c) (height c)) in
    emit "Zoom level reset." (with_canvas a c).

(** ** Gestures of several events *)

(** The pointer moves of one drag, in order. *)
Fixpoint moves (tk : Toolkit) (c : Canvas) (events : list QMouseEvent)
  : option Canvas :=
  match events with
  | [] => Some c
  | event :: rest =>
      c' <- mouseMoveEvent tk c event ;;
      moves tk c' rest
  end.

(** The image after the pen drew the segments from [from] through
    [points], each from the end of the one before. *)
Fixpoint polyline (tk : Toolkit) (img : QImage.t) (colour : QRgb.t) (w : Z)
  (from : QPoint.t) (points : list QPoint.t) : QImage.t :=
  match points with
  | [] => img
  | q :: rest => polyline tk (drawLine tk img colour w from q) colour w q rest
  end.

(** ** The images of a polygon selection *)

(** ** The polygon of a path *)

(** The polygon through the points of a path, closed from its last point
    back to its first, seen from the centre of a pixel.  Coordinates are
    doubled to keep the centre ([cx], [cy]) integral; the points of a
    path have whole coordinates, so no corner lies at the height of a
    centre.

    [edge_offset] is the distance from the centre, along its row, to the
    line through [a] and [b], multiplied by the rise of the edge. *)
Definition edge_offset (cx cy : Z) (a b : QPoint.t) : Z :=
  let ax := 2 * QPoint.x a in
  let ay := 2 * QPoint.y a in
  let bx := 2 * QPoint.x b in
  let by_ := 2 * QPoint.y b in
  (bx - ax) * (cy - ay) - (cx - ax) * (by_ - ay).

Definition edge_rise (a b : QPoint.t) : Z := 2 * QPoint.y b - 2 * QPoint.y a.

(** Does the edge from [a] to [b] meet the row of the centre, at or to the
    right of the centre? *)
Definition crosses (cx cy : Z) (a b : QPoint.t) : bool :=
  let ay := 2 * QPoint.y a in
  let by_ := 2 * QPoint.y b in
  if (ay <? cy) && (cy <? by_) then 0 <=? edge_offset cx cy a b
  else if (by_ <? cy) && (cy <? ay) then edge_offset cx cy a b <=? 0
  else false.

Fixpoint crossings (cx cy : Z) (first prev : QPoint.t) (rest : list QPoint.t)
  : bool :=
  match rest with
  | [] => crosses cx cy prev first
  | p :: rest' => xorb (crosses cx cy prev p) (crossings cx cy first p rest')
  end.

(** The odd-even rule at the centre of pixel ([px], [py]), in exact
    arithmetic: a ray from the centre to the right meets an odd number of
    edges.  An edge through the centre itself counts, so a centre on a
    right edge is inside and a centre on a left edge is not (the scan
    converter of Qt 5 rounds the end of a span at a pixel centre that
    way). *)
Definition covered (path : list QPoint.t) (px py : Z) : bool :=
  match path with
  | [] => false
  | p :: rest => crossings (2 * px + 1) (2 * py + 1) p p rest
  end.

(** Does the edge from [a] to [b] stay at least half a pixel away from the
    centre along its row? *)
Definition clear_of_edge (cx cy : Z) (a b : QPoint.t) : bool :=
  let ay := 2 * QPoint.y a in
  let by_ := 2 * QPoint.y b in
  if ((ay <? cy) && (cy <? by_)) || ((by_ <? cy) && (cy <? ay))
  then Z.abs (edge_rise a b) <=? Z.abs (edge_offset cx cy a b)
  else true.

Fixpoint clear_of_edges (cx cy : Z) (first prev : QPoint.t)
  (rest : list QPoint.t) : bool :=
  match rest with
  | [] => clear_of_edge cx cy prev first
  | p :: rest' =>
      clear_of_edge cx cy prev p && clear_of_edges cx cy first p rest'
  end.

(** The centre of pixel ([px], [py]) is at least half a pixel away, along
    its row, from every edge of the polygon. *)
Definition clear_of_outline (path : list QPoint.t) (px py : Z) : bool :=
  match path with
  | [] => true
  | p :: rest => clear_of_edges (2 * px + 1) (2 * py + 1) p p rest
  end.


(** ** The images of a polygon selection *)




(** ** The states of the selection engine *)

Inductive Phase := Idle | Selecting | Selected | Moving.

(** The state the handlers act on: a selection that exists
    ([selected_area]) is being moved when [is_moving_selection] is set (the
    test of [mouseMoveEvent]) and rests otherwise; without one, a path
    that has points or is being drawn is a selection in progress. *)
Definition phase (c : Canvas) : Phase :=
  match selected_area c with
  | Some _ => if is_moving_selection c then Moving else Selected
  | None =>
      if negb (is_empty (selection_path c)) || drawing_selection c
      then Selecting
      else Idle
  end.

(** The zoom range named in [handle_pinch]. *)
Definition in_zoom_range (s : float) : bool :=
  PrimFloat.leb 0.1 s && PrimFloat.leb s 5.0.

(** [n] successive runs of a command that may raise. *)
Fixpoint repeat_command {A : Type} (n : nat) (f : A -> option A) (a : A)
  : option A :=
  match n with
  | O => Some a
  | S k => a' <- f a ;; repeat_command k f a'
  end.

(** ** A toolkit to run examples with *)

(** Nearest-neighbour sampling for the filter, a pen that marks the two
    ends of a stroke and the odd-even rule in exact arithmetic for the
    scan conversion: any instance serves for the first two, since no
    statement below depends on the colours they produce. *)
Definition sample_toolkit : Toolkit :=
  mkToolkit
    (fun i nw nh px py =>
       QImage.pixel i (px * QImage.width i / nw) (py * QImage.height i / nh))
    (fun i colour w p q =>
       QImage.fillRect CompositionMode_Source
         (QImage.fillRect CompositionMode_Source i
            (QRect.mk (QPoint.x p) (QPoint.y p) 1 1) colour)
         (QRect.mk (QPoint.x q) (QPoint.y q) 1 1) colour)
    covered.

(** ** States to run examples on *)

(** A 5 x 5 image, opaque red, and a 2 x 2 image, fully transparent. *)
Definition red_5x5 : QImage.t :=
  QImage.filled 5 5 Format_ARGB32 (QRgb.mk 255 255 0 0).

Definition clear_2x2 : QImage.t :=
  QImage.filled 2 2 Format_ARGB32 QRgb.transparent.

(** A session: zoom out once, repaint (the 640 x 480 display image is
    centred at offsets 80 and 60), take the rectangle tool, press at widget
    point (72, 100), drag to (160, 180), release. *)
Definition drag_rect_session : option App :=
  a <- zoom_out sample_toolkit init_app ;;
  let c := set_tool (paintEvent (canvas a)) (Some "rect"%string) in
  c <- mousePressEvent c (mkMouse (QPoint.mk 72 100) LeftButton) ;;
  c <- mouseMoveEvent sample_toolkit c (mkMouse (QPoint.mk 160 180) LeftButton) ;;
  mouseReleaseEvent sample_toolkit (with_canvas a c).

(** The canvas a session leaves ([init_canvas] had it raised). *)
Definition canvas_after (session : option App) : Canvas :=
  match session with
  | Some a => canvas a
  | None => init_canvas
  end.

(** A session: on a new canvas, paste the red image at (20, 20). *)
Definition paste_session : option App :=
  paste_selection sample_toolkit (with_clipboard init_app red_5x5)
    (Some (QPoint.mk 20 20)).

(** A session: after that paste, press inside the pasted image, at
    (22, 23). *)
Definition grab_session : option App :=
  a <- paste_session ;;
  c <- mousePressEvent (canvas a) (mkMouse (QPoint.mk 22 23) RightButton) ;;
  Some (with_canvas a c).

(** A session: on a new canvas, take the rectangle tool and paste the
    transparent image with no position given. *)
Definition paste_at_origin_session (tk : Toolkit) : option App :=
  paste_selection tk
    (with_clipboard
       (with_canvas init_app (set_tool init_canvas (Some "rect"%string)))
       clear_2x2)
    None.


(** A new canvas with the rectangle tool and a selection from (10, 10) to
    (50, 40). *)
Definition rect_app : App :=
  with_canvas init_app
    (with_selection_path
       (with_selection_start (set_tool init_canvas (Some "rect"%string))
          (Some (QPoint.mk 10 10)))
       [QPoint.mk 10 10; QPoint.mk 50 40]).

(** A new canvas after [zoom_in] was run nine times. *)
Definition zoomed_in_canvas : Canvas :=
  canvas_after (repeat_command 9 (zoom_in sample_toolkit) init_app).

(** A 4 x 3 image whose pixels differ from one another. *)
Definition chequered : QImage.t :=
  QImage.mk 4 3 Format_RGB32 (fun px py => QRgb.mk 255 px py 7).

(** An application whose display image is that image. *)
Definition chequered_app : App :=
  with_canvas init_app (with_image init_canvas chequered).

(** A new canvas with the lasso tool just after a press at (3, 4). *)
Definition lasso_pressed_canvas : Canvas :=
  canvas_after
    (c <- mousePressEvent (set_tool init_canvas (Some "lasso"%string))
            (mkMouse (QPoint.mk 3 4) LeftButton) ;;
     Some (with_canvas init_app c)).

(** A new canvas with the pencil just after a press at (3, 4). *)
Definition pencil_pressed_canvas : Canvas :=
  canvas_after
    (c <- mousePressEvent init_canvas (mkMouse (QPoint.mk 3 4) LeftButton) ;;
     Some (with_canvas init_app c)).





(** * Properties *)

(** ** Conditions on the tool *)

Lemma tool_is_eq (c : Canvas) (name : string) :
  tool_is c name = true -> tool c = Some name.
Proof.
  unfold tool_is. destruct (tool c) as [s|]; [|discriminate].
  intros H. apply String.eqb_eq in H. now subst.
Qed.

(** ** Zoom *)

Lemma ltb_leb (a b : float) : PrimFloat.ltb a b = true -> PrimFloat.leb a b = true.
Proof.
  rewrite FloatAxioms.ltb_spec, FloatAxioms.leb_spec.
  unfold SFltb, SFleb.
  destruct (SFcompare (Prim2SF a) (Prim2SF b)) as [[ | | ]|]; congruence.
Qed.

(** The limits of [handle_pinch] hold for every float, NaN and the
    infinities included. *)
Lemma clamp_in_zoom_range (s : float) :
  in_zoom_range (Py.max 0.1 (Py.min 5.0 s)) = true.
Proof.
  unfold in_zoom_range, Py.max, Py.min.
  destruct (PrimFloat.ltb s 5.0) eqn:Hhi.
  - destruct (PrimFloat.ltb 0.1 s) eqn:Hlo.
    + now rewrite (ltb_leb _ _ Hlo), (ltb_leb _ _ Hhi).
    + reflexivity.
  - reflexivity.
Qed.

(** A pinch keeps the scale within the zoom range. *)
Lemma handle_pinch_in_zoom_range (tk : Toolkit) (c c' : Canvas) (g : QPinchGesture) :
  in_zoom_range (current_scale c) = true ->
  handle_pinch tk c g = Some c' ->
  in_zoom_range (current_scale c') = true.
Proof.
  intros Hc. unfold handle_pinch.
  destruct (QImage.isNull (original_image c)); [intros [= <-]; exact Hc|].
  destruct (state g); try (intros [= <-]; exact Hc).
  all: destruct (Py.ne _ _); [|intros [= <-]; exact Hc].
  all: destruct (rescaled tk _) as [img|]; simpl; [|discriminate].
  all: intros [= <-]; simpl; apply clamp_in_zoom_range.
Qed.

(** C1: the discrete zoom commands multiply the scale and recompute the
    display image without any clamp.  Nine runs of [zoom_in] on a new
    canvas all succeed and leave [current_scale] at 1.2^9 > 5.0, outside
    the range [0.1, 5.0] that [handle_pinch] enforces; eleven runs of
    [zoom_out] leave it at 0.8^11 < 0.1. *)
Theorem zoom_commands_leave_zoom_range (tk : Toolkit) :
  (exists a,
     repeat_command 9 (zoom_in tk) init_app = Some a
     /\ PrimFloat.ltb 5.0 (current_scale (canvas a)) = true
     /\ in_zoom_range (current_scale (canvas a)) = false)
  /\ (exists a,
        repeat_command 11 (zoom_out tk) init_app = Some a
        /\ PrimFloat.ltb (current_scale (canvas a)) 0.1 = true
        /\ in_zoom_range (current_scale (canvas a)) = false).
Proof.
  split; eexists; (split; [vm_compute; reflexivity|]);
    split; vm_compute; reflexivity.
Qed.

(** ** Whole-image commands *)

(** C2, as stated, fails: after [rotate_image_90] on a new canvas the
    original image is still 800 pixels wide, where its quarter turn is 600
    wide; the turned image is the display image. *)
Lemma rotate_image_90_keeps_original_image :
  QImage.width (transformed Rotate90 (original_image (canvas init_app))) = 600
  /\ QImage.width
       (original_image (canvas (transform_command Rotate90 init_app))) = 800
  /\ QImage.width (image (canvas (transform_command Rotate90 init_app))) = 600
  /\ QImage.height (image (canvas (transform_command Rotate90 init_app))) = 800.
Proof. repeat split; reflexivity. Qed.

(** C2, amended: every whole-image command (crop, resize, rotate by 90 or
    -90 degrees, vertical or horizontal flip) leaves the original image
    and the scale as they were; it replaces the display image by the
    transform of the display image it read, unless that image is null, and
    does not recompute it from the original image. *)
Theorem transform_command_acts_on_display_image (t : Transform) (a : App) :
  original_image (canvas (transform_command t a)) = original_image (canvas a)
  /\ current_scale (canvas (transform_command t a)) = current_scale (canvas a)
  /\ image (canvas (transform_command t a))
     = (if QImage.isNull (image (canvas a)) then image (canvas a)
        else transformed t (image (canvas a))).
Proof.
  destruct t as [ | [w|] [h|] | | | | ]; simpl;
    unfold crop_image, resize_image, rotate_image_90, rotate_image_90_cc,
      flip_vertical, flip_horizontal;
    destruct (QImage.isNull (image (canvas a))); simpl; auto.
Qed.

(** ** Tool switch *)

(** C3: whatever the state of the canvas and whatever the tool,
    [set_tool] leaves the engine idle, with an empty selection path and no
    selected area, and setting the same tool a second time changes
    nothing more.  Idle is meant as the handlers see it: a pointer move
    that follows neither moves nor extends a selection. *)
Theorem set_tool_resets_selection (tk : Toolkit) (c : Canvas)
  (t : option string) :
  phase (set_tool c t) = Idle
  /\ selection_path (set_tool c t) = []
  /\ selected_area (set_tool c t) = None
  /\ set_tool (set_tool c t) t = set_tool c t
  /\ (forall event c',
        mouseMoveEvent tk (set_tool c t) event = Some c' ->
        phase c' = Idle /\ selection_path c' = [] /\ selected_area c' = None).
Proof.
  split; [reflexivity|]. split; [reflexivity|]. split; [reflexivity|].
  split; [reflexivity|].
  intros event c'. unfold mouseMoveEvent.
  destruct (map_to_scaled_image (set_tool c t) (pos event)) as [p|];
    [|discriminate].
  simpl. rewrite andb_false_r.
  unfold tool_in, tool_is, tool_is_None; simpl.
  rewrite !andb_false_r. simpl.
  destruct t as [s|]; simpl.
  - destruct (String.eqb s "erase" && drawing c); [|now intros [= <-]].
    destruct (rescaled tk _); simpl; [now intros [= <-]|discriminate].
  - destruct (drawing c); [|now intros [= <-]].
    destruct (rescaled tk _); simpl; [now intros [= <-]|discriminate].
Qed.

(** ** Operations without a selection or without a clipboard image *)

(** C5: with an empty selection path, copy, cut and extract each send one
    status message, raise nothing and change nothing else; so does paste
    when the clipboard holds no image.  The canvas (original image, display
    image, selection path, selected area) and the clipboard are as
    before. *)
Theorem nothing_to_act_on_is_noop (tk : Toolkit) (a : App)
  (position : option QPoint.t) :
  (selection_path (canvas a) = [] ->
   copy_selection tk a = emit "No selection to copy." a
   /\ cut_selection tk a = Some (emit "No selection to cut." a)
   /\ extract_selection tk a = emit "No selection to extract." a)
  /\ (QImage.isNull (clipboard a) = true ->
      paste_selection tk a position = Some (emit "Clipboard is empty." a))
  /\ (forall msg, canvas (emit msg a) = canvas a
                  /\ clipboard (emit msg a) = clipboard a
                  /\ warnings (emit msg a) = warnings a
                  /\ status (emit msg a) = status a ++ [msg]).
Proof.
  split; [|split].
  - intros Hp. unfold copy_selection, cut_selection, extract_selection.
    rewrite Hp. simpl. auto.
  - intros Hc. unfold paste_selection. now rewrite Hc.
  - intros msg. repeat split.
Qed.

Lemma nothing_to_act_on_is_noop_witness :
  copy_selection sample_toolkit init_app = emit "No selection to copy." init_app
  /\ paste_selection sample_toolkit init_app None
     = Some (emit "Clipboard is empty." init_app).
Proof.
  destruct (nothing_to_act_on_is_noop sample_toolkit init_app None)
    as [Hsel [Hclip _]].
  split.
  - apply Hsel. reflexivity.
  - apply Hclip. reflexivity.
Defined.

(** ** Mouse events *)



(** C9: a pointer move while a selection is being moved changes one
    attribute, [selection_start], which becomes the mapped point minus the
    recorded offset; the selected area, the selection path, the original
    image and the display image are untouched. *)
Theorem move_changes_only_selection_start (tk : Toolkit) (c : Canvas)
  (event : QMouseEvent) (p : QPoint.t) :
  is_moving_selection c = true ->
  selected_area c <> None ->
  map_to_scaled_image c (pos event) = Some p ->
  let c' := with_selection_start c (Some (QPoint.sub p (selection_offset c))) in
  mouseMoveEvent tk c event = Some c'
  /\ selected_area c' = selected_area c
  /\ selection_path c' = selection_path c
  /\ original_image c' = original_image c
  /\ image c' = image c.
Proof.
  intros Hmove Harea Hmap c'. split; [|repeat split].
  unfold mouseMoveEvent. rewrite Hmap. simpl.
  rewrite Hmove. unfold has_area.
  destruct (selected_area c); [reflexivity|contradiction].
Qed.

Lemma move_changes_only_selection_start_witness :
  mouseMoveEvent sample_toolkit (canvas_after grab_session)
    (mkMouse (QPoint.mk 30 31) LeftButton)
  = Some (with_selection_start (canvas_after grab_session)
            (Some (QPoint.mk 28 28))).
Proof.
  assert (Harea : selected_area (canvas_after grab_session) <> None)
    by (vm_compute; discriminate).
  exact (proj1 (move_changes_only_selection_start sample_toolkit
                  (canvas_after grab_session)
                  (mkMouse (QPoint.mk 30 31) LeftButton) (QPoint.mk 30 31)
                  eq_refl Harea eq_refl)).
Defined.

Lemma bind_Some {A B : Type} (m : option A) (k : A -> option B) (b : B) :
  bind m k = Some b -> exists a, m = Some a /\ k a = Some b.
Proof. destruct m as [a|]; simpl; [eauto|discriminate]. Qed.



(** Case analysis on the name of the tool, as the handlers compare it. *)
Ltac by_tool s :=
  destruct (String.eqb_spec s "rect") as [->|?]; simpl;
  [|destruct (String.eqb_spec s "lasso") as [->|?]; simpl;
    [|destruct (String.eqb_spec s "polygon") as [->|?]; simpl;
      [|destruct (String.eqb_spec s "erase") as [->|?]; simpl]]].



(** Points off the image other than -1 are handled: a press two pixels
    left of the image, and one beyond its right and bottom edges, each
    start the rectangle there. *)
Example press_off_the_image_is_handled :
  option_map selection_path
    (mousePressEvent (canvas_after drag_rect_session)
       (mkMouse (QPoint.mk 78 130) LeftButton))
  = Some [QPoint.mk (-2) 87]
  /\ option_map selection_path
       (mousePressEvent (canvas_after drag_rect_session)
          (mkMouse (QPoint.mk 799 599) LeftButton))
     = Some [QPoint.mk 898 673]
  /\ QImage.width (original_image (canvas_after drag_rect_session)) = 800
  /\ QImage.height (original_image (canvas_after drag_rect_session)) = 600.
Proof.
  repeat (apply conj; [vm_compute; reflexivity|]).
  vm_compute; reflexivity.
Qed.




(** The same press one pixel to the right: the selection is grabbed, and
    the rectangle tool restarts the path and the start at the point. *)
Example press_in_selection_with_rect_tool_restarts_path :
  exists c',
    mousePressEvent (canvas_after drag_rect_session)
      (mkMouse (QPoint.mk 80 130) LeftButton) = Some c'
    /\ phase c' = Moving
    /\ selection_path (canvas_after drag_rect_session)
       = [QPoint.mk (-112) (-12); QPoint.mk 25 112]
    /\ selection_path c' = [QPoint.mk 0 87]
    /\ selection_start c' = Some (QPoint.mk 0 87).
Proof.
  eexists. split; [vm_compute; reflexivity|].
  repeat split; vm_compute; reflexivity.
Qed.

(** ** Pixels *)


Lemma byte_mul_0 (c : Z) : QRgb.byte_mul c 0 = 0.
Proof. unfold QRgb.byte_mul. rewrite Z.mul_0_r. reflexivity. Qed.

Lemma bytes_id (p : QRgb.t) : is_bytes p -> QRgb.bytes p = p.
Proof.
  intros (Ha & Hr & Hg & Hb). destruct p as [a r g b]. unfold QRgb.bytes.
  simpl in *. now rewrite !Z.mod_small by assumption.
Qed.

Lemma pixel_is_bytes (i : QImage.t) (px py : Z) : is_bytes (QImage.pixel i px py).
Proof.
  unfold QImage.pixel, QImage.store, is_bytes.
  destruct (QImage.format i); simpl;
    repeat split; try apply Z.mod_pos_bound; lia.
Qed.

Lemma store_is_bytes (f : Format) (p : QRgb.t) :
  is_bytes p -> is_bytes (QImage.store f p).
Proof.
  unfold is_bytes. destruct f; simpl; intros (Ha & Hr & Hg & Hb);
    repeat split; lia.
Qed.

Lemma store_store (f : Format) (p : QRgb.t) :
  QImage.store f (QImage.store f p) = QImage.store f p.
Proof. destruct f; reflexivity. Qed.


Lemma scale_0 (p : QRgb.t) : QRgb.scale p 0 = QRgb.transparent.
Proof. unfold QRgb.scale. now rewrite !byte_mul_0. Qed.

Lemma plus_transparent (p : QRgb.t) : QRgb.plus p QRgb.transparent = p.
Proof. destruct p. unfold QRgb.plus. simpl. now rewrite !Z.add_0_r. Qed.

(** What an image shows after [drawImage]: outside the drawn image the
    pixel it had; under an opaque pixel drawn in the default mode, that
    pixel, in the format of the destination. *)
Lemma drawImage_pixel (dst src : QImage.t) (pos : QPoint.t) (px py : Z) :
  let drawn := QImage.drawImage CompositionMode_SourceOver dst pos src in
  let sx := px - QPoint.x pos in
  let sy := py - QPoint.y pos in
  QImage.width drawn = QImage.width dst
  /\ QImage.height drawn = QImage.height dst
  /\ QImage.format drawn = QImage.format dst
  /\ (QImage.inside src sx sy = false ->
      QImage.pixel drawn px py = QImage.pixel dst px py)
  /\ (QImage.inside src sx sy = true ->
      QRgb.alpha (QImage.pixel src sx sy) = 255 ->
      QImage.pixel drawn px py
      = QImage.store (QImage.format dst) (QImage.pixel src sx sy)).
Proof.
  cbv zeta. repeat split.
  - intros Hout. unfold QImage.pixel at 1. simpl. rewrite Hout.
    rewrite bytes_id by apply pixel_is_bytes.
    unfold QImage.pixel. apply store_store.
  - intros Hin Hop. unfold QImage.pixel at 1. simpl. rewrite Hin, Hop.
    simpl. rewrite scale_0, plus_transparent.
    rewrite bytes_id by (apply store_is_bytes, pixel_is_bytes).
    apply store_store.
Qed.

(** ** Paste *)

Lemma or_origin_Some (q : QPoint.t) : or_origin (Some q) = q.
Proof.
  unfold or_origin, QPoint.bool, QPoint.isNull. destruct q as [qx qy]. simpl.
  destruct (Z.eqb_spec qx 0) as [->|]; [|reflexivity].
  destruct (Z.eqb_spec qy 0) as [->|]; reflexivity.
Qed.

(** C7: with an image of size w x h on the clipboard, paste at a position
    (the origin when none is given) draws the image onto the original
    image there, recomputes the display image from the result, and leaves
    a finished selection: the engine is in the selected state, the path
    is the two points [position, position + (w, h)], the start is the
    position and the selected area is the clipboard image itself.  On
    the original image a pixel outside the pasted image is as before and
    a pixel under an opaque pixel of it shows that pixel.  The paste is
    taken outside a move of a selection, at a scale for which the display
    size is defined. *)
Theorem paste_selects_pasted_image (tk : Toolkit) (a : App)
  (position : option QPoint.t) (size : Z * Z) :
  QImage.isNull (clipboard a) = false ->
  is_moving_selection (canvas a) = false ->
  display_size (canvas a) = Some size ->
  let p := or_origin position in
  let clip := clipboard a in
  let drawn :=
    QImage.drawImage CompositionMode_SourceOver (original_image (canvas a)) p
      clip in
  exists a',
    paste_selection tk a position = Some a'
    /\ (forall q, position = Some q -> p = q)
    /\ (position = None -> p = QPoint.mk 0 0)
    /\ original_image (canvas a') = drawn
    /\ image (canvas a')
       = QImage.scaled (smooth tk) drawn (fst size) (snd size)
    /\ phase (canvas a') = Selected
    /\ selection_start (canvas a') = Some p
    /\ selection_path (canvas a')
       = [p; QPoint.mk (QPoint.x p + QImage.width clip)
               (QPoint.y p + QImage.height clip)]
    /\ selected_area (canvas a') = Some clip
    /\ clipboard a' = clip
    /\ status a' = status a ++ ["Image pasted with selection."%string]
    /\ (forall px py,
          let sx := px - QPoint.x p in
          let sy := py - QPoint.y p in
          (QImage.inside clip sx sy = false ->
           QImage.pixel (original_image (canvas a')) px py
           = QImage.pixel (original_image (canvas a)) px py)
          /\ (QImage.inside clip sx sy = true ->
              QRgb.alpha (QImage.pixel clip sx sy) = 255 ->
              QImage.pixel (original_image (canvas a')) px py
              = QImage.store (QImage.format (original_image (canvas a)))
                  (QImage.pixel clip sx sy))).
Proof.
  intros Hclip Hmove Hsize p clip drawn.
  unfold paste_selection. rewrite Hclip. fold p. fold clip. fold drawn.
  unfold rescaled.
  change (display_size (with_original_image (canvas a) drawn))
    with (display_size (canvas a)).
  rewrite Hsize. simpl.
  eexists. split; [reflexivity|].
  split; [intros q ->; apply or_origin_Some|].
  split; [intros ->; reflexivity|].
  unfold phase. simpl. rewrite Hmove.
  do 8 (split; [reflexivity|]).
  intros px py.
  destruct (drawImage_pixel (original_image (canvas a)) clip p px py)
    as (_ & _ & _ & Hout & Hin).
  split; assumption.
Qed.

Lemma paste_selects_pasted_image_witness :
  exists a',
    paste_session = Some a'
    /\ selection_path (canvas a') = [QPoint.mk 20 20; QPoint.mk 25 25]
    /\ selected_area (canvas a') = Some red_5x5
    /\ phase (canvas a') = Selected.
Proof.
  destruct (paste_selects_pasted_image sample_toolkit
              (with_clipboard init_app red_5x5) (Some (QPoint.mk 20 20))
              (800, 600))
    as (a' & Hrun & _ & _ & _ & _ & Hphase & _ & Hpath & Harea & _);
    [reflexivity|reflexivity|reflexivity|].
  exists a'. repeat split; assumption.
Defined.

(** ** Extraction *)

Lemma pixel_pixel (i : QImage.t) (px py : Z) :
  QImage.store (QImage.format i) (QRgb.bytes (QImage.pixel i px py))
  = QImage.pixel i px py.
Proof.
  rewrite bytes_id by apply pixel_is_bytes. unfold QImage.pixel.
  apply store_store.
Qed.

Lemma tool_is_rect_not_path_tool (c : Canvas) :
  tool_is c "rect" = true -> tool_in c ["lasso"; "polygon"]%string = false.
Proof.
  intros H. unfold tool_in, tool_is. simpl.
  rewrite (tool_is_eq _ _ H). reflexivity.
Qed.

(** With the rectangle tool and a start that is not the origin, extraction
    takes the rectangle normalised from the start and the last path point;
    when both sides are positive the selected area becomes the copy of
    that rectangle of the original image, of the same size and format and
    with the pixels of the original image wherever the rectangle lies on
    it; otherwise no area is set. *)
Lemma extract_selection_rect_copies (tk : Toolkit) (a : App) (start : QPoint.t) :
  let c := canvas a in
  let end_ := last (selection_path c) start in
  let x1 := Z.min (QPoint.x start) (QPoint.x end_) in
  let y1 := Z.min (QPoint.y start) (QPoint.y end_) in
  let w := Z.max (QPoint.x start) (QPoint.x end_) - x1 in
  let h := Z.max (QPoint.y start) (QPoint.y end_) - y1 in
  tool_is c "rect" = true ->
  selection_start c = Some start ->
  QPoint.bool start = true ->
  selection_path c <> [] ->
  QImage.isNull (original_image c) = false ->
  get_selection_rect c = QRect.mk x1 y1 w h
  /\ (0 < w -> 0 < h ->
      exists area,
        selected_area (canvas (extract_selection tk a)) = Some area
        /\ QImage.width area = w
        /\ QImage.height area = h
        /\ QImage.format area = QImage.format (original_image c)
        /\ (forall i j,
              QImage.inside (original_image c) (x1 + i) (y1 + j) = true ->
              QImage.pixel area i j
              = QImage.pixel (original_image c) (x1 + i) (y1 + j)))
  /\ (w = 0 \/ h = 0 ->
      selected_area (canvas (extract_selection tk a)) = selected_area c).
Proof.
  intros c end_ x1 y1 w h Htool Hstart Hbool Hpath Horig.
  assert (Hrect : get_selection_rect c = QRect.mk x1 y1 w h).
  { unfold get_selection_rect. rewrite Hstart. simpl. rewrite Hbool.
    destruct (selection_path c) eqn:E; [contradiction|reflexivity]. }
  assert (Hex : canvas (extract_selection tk a)
                = if QRect.isValid (QRect.mk x1 y1 w h)
                  then with_selected_area c
                         (Some (QImage.copy (original_image c)
                                  (QRect.mk x1 y1 w h)))
                  else c).
  { assert (Hne : is_empty (selection_path c) = false)
      by (destruct (selection_path c); [contradiction|reflexivity]).
    unfold extract_selection. fold c.
    rewrite Hne, (tool_is_rect_not_path_tool c Htool), Htool, Hstart, Hrect.
    simpl truthy. rewrite Hbool. simpl andb. cbv iota.
    destruct (QRect.isValid (QRect.mk x1 y1 w h)); reflexivity. }
  split; [exact Hrect|]. split.
  - intros Hw Hh. rewrite Hex.
    unfold QRect.isValid. simpl.
    destruct (Z.ltb_spec 0 w); [|lia]. destruct (Z.ltb_spec 0 h); [|lia].
    simpl. unfold QImage.copy. rewrite Horig.
    unfold QRect.isNull. simpl.
    destruct (Z.eqb_spec w 0); [lia|]. simpl.
    destruct (Z.leb_spec w 0); [lia|]. destruct (Z.leb_spec h 0); [lia|].
    simpl. eexists. split; [reflexivity|]. repeat split.
    intros i j Hin. unfold QImage.pixel at 1. simpl. rewrite Hin.
    apply pixel_pixel.
  - intros Hz. rewrite Hex.
    replace (QRect.isValid (QRect.mk x1 y1 w h)) with false; [reflexivity|].
    unfold QRect.isValid. simpl.
    destruct Hz as [-> | ->]; [reflexivity|]. now rewrite andb_false_r.
Qed.


(** C4: with the rectangle tool, a start at the origin and the two-point
    path [(0,0), (2,2)] (the state a paste without a position leaves), the
    start counts as false in the tests of [get_selection_rect] and
    [extract_selection]: the rectangle comes out null and extraction sets
    nothing.  The selected area is still the transparent clipboard image,
    where the original image shows white. *)
Theorem extract_selection_skips_rect_at_origin (tk : Toolkit) :
  exists a,
    paste_at_origin_session tk = Some a
    /\ tool (canvas a) = Some "rect"%string
    /\ selection_start (canvas a) = Some (QPoint.mk 0 0)
    /\ selection_path (canvas a) = [QPoint.mk 0 0; QPoint.mk 2 2]
    /\ get_selection_rect (canvas a) = QRect.null
    /\ selected_area (canvas (extract_selection tk a)) = Some clear_2x2
    /\ QImage.pixel clear_2x2 0 0 = QRgb.transparent
    /\ QImage.pixel (original_image (canvas a)) 0 0 = QRgb.white.
Proof.
  eexists. split; [vm_compute; reflexivity|].
  repeat split; vm_compute; reflexivity.
Qed.

(** The example of the specification: corners (10, 10) and (50, 40) give
    an area of 40 x 30 pixels with the pixels of the original image. *)
Example extract_selection_rect_40x30 :
  exists area,
    selected_area (canvas (extract_selection sample_toolkit rect_app)) = Some area
    /\ QImage.width area = 40
    /\ QImage.height area = 30
    /\ (forall i j,
          0 <= i < 40 -> 0 <= j < 30 ->
          QImage.pixel area i j
          = QImage.pixel (original_image (canvas rect_app)) (10 + i) (10 + j)).
Proof.
  pose proof (extract_selection_rect_copies sample_toolkit rect_app (QPoint.mk 10 10)) as H.
  cbv zeta in H.
  change (last (selection_path (canvas rect_app)) (QPoint.mk 10 10))
    with (QPoint.mk 50 40) in H.
  cbn [QPoint.x QPoint.y] in H.
  change (Z.min 10 50) with 10 in H. change (Z.min 10 40) with 10 in H.
  change (Z.max 10 50 - 10) with 40 in H.
  change (Z.max 10 40 - 10) with 30 in H.
  destruct H as (_ & Hcopy & _); try reflexivity; [discriminate|].
  destruct Hcopy as (area & Ha & Hw & Hh & _ & Hpix); try reflexivity.
  exists area. repeat split; try assumption.
  intros i j Hi Hj. apply Hpix.
  unfold QImage.inside.
  change (QImage.width (original_image (canvas rect_app))) with 800.
  change (QImage.height (original_image (canvas rect_app))) with 600.
  rewrite !andb_true_iff, !Z.leb_le, !Z.ltb_lt. lia.
Qed.









(** ** The odd-even rule on a rectangle *)

Lemma level_edge (cx cy xa xb y : Z) :
  crosses cx cy (QPoint.mk xa y) (QPoint.mk xb y) = false
  /\ clear_of_edge cx cy (QPoint.mk xa y) (QPoint.mk xb y) = true.
Proof.
  unfold crosses, clear_of_edge. cbn [QPoint.x QPoint.y].
  destruct (Z.ltb_spec (2 * y) cy), (Z.ltb_spec cy (2 * y)); try lia;
    split; reflexivity.
Qed.

Lemma upright_edge (px py x ya yb : Z) :
  crosses (2 * px + 1) (2 * py + 1) (QPoint.mk x ya) (QPoint.mk x yb)
  = (Z.min ya yb <=? py) && (py <? Z.max ya yb) && (px <? x)
  /\ clear_of_edge (2 * px + 1) (2 * py + 1) (QPoint.mk x ya) (QPoint.mk x yb)
     = true.
Proof.
  unfold crosses, clear_of_edge, edge_offset, edge_rise.
  cbn [QPoint.x QPoint.y].
  replace ((2 * x - 2 * x) * (2 * py + 1 - 2 * ya)
           - (2 * px + 1 - 2 * x) * (2 * yb - 2 * ya))
    with ((2 * x - 2 * px - 1) * (2 * yb - 2 * ya)) by ring.
  destruct (Z.ltb_spec (2 * ya) (2 * py + 1)),
    (Z.ltb_spec (2 * py + 1) (2 * yb)),
    (Z.ltb_spec (2 * yb) (2 * py + 1)),
    (Z.ltb_spec (2 * py + 1) (2 * ya)); try lia; cbn [andb orb];
    destruct (Z.leb_spec (Z.min ya yb) py), (Z.ltb_spec py (Z.max ya yb));
    try lia; cbn [andb]; destruct (Z.ltb_spec px x);
    (split; [|try reflexivity; apply Z.leb_le; nia]);
    try reflexivity;
    first [apply Z.leb_le; nia | apply Z.leb_gt; nia].
Qed.

(** On the rectangle with corners ([x1], [y1]) and ([x2], [y2]) the rule
    gives the pixels of the half-open box, and every pixel centre is clear
    of the outline. *)
Lemma covered_rectangle (x1 y1 x2 y2 px py : Z) :
  x1 < x2 -> y1 < y2 ->
  let path := [QPoint.mk x1 y1; QPoint.mk x2 y1; QPoint.mk x2 y2;
               QPoint.mk x1 y2] in
  covered path px py
  = (x1 <=? px) && (px <? x2) && (y1 <=? py) && (py <? y2)
  /\ clear_of_outline path px py = true.
Proof.
  intros Hx Hy path. unfold path, covered, clear_of_outline.
  cbn [crossings clear_of_edges].
  destruct (level_edge (2 * px + 1) (2 * py + 1) x1 x2 y1) as [-> ->].
  destruct (level_edge (2 * px + 1) (2 * py + 1) x2 x1 y2) as [-> ->].
  destruct (upright_edge px py x2 y1 y2) as [-> ->].
  destruct (upright_edge px py x1 y2 y1) as [-> ->].
  split; [|reflexivity].
  rewrite (Z.min_l y1 y2), (Z.max_r y1 y2), (Z.min_r y2 y1), (Z.max_l y2 y1)
    by lia.
  destruct (Z.leb_spec y1 py), (Z.ltb_spec py y2), (Z.leb_spec x1 px),
    (Z.ltb_spec px x2), (Z.ltb_spec px x1); try lia; reflexivity.
Qed.




(** * Further properties *)

(** ** Painting *)

(** X1: [paintEvent] leaves offsets that are never negative; an image no
    wider than the widget is centred to within one pixel, a wider one
    starts at the left edge; the same holds for the heights. *)
Theorem paintEvent_centres_image (c : Canvas) :
  let c' := paintEvent c in
  let free_x := width c - QImage.width (image c) in
  let free_y := height c - QImage.height (image c) in
  0 <= offset_x c' /\ 0 <= offset_y c'
  /\ (0 <= free_x -> free_x - 1 <= 2 * offset_x c' <= free_x)
  /\ (free_x <= 0 -> offset_x c' = 0)
  /\ (0 <= free_y -> free_y - 1 <= 2 * offset_y c' <= free_y)
  /\ (free_y <= 0 -> offset_y c' = 0)
  /\ image c' = image c
  /\ original_image c' = original_image c
  /\ selection_path c' = selection_path c.
Proof.
  cbv zeta. unfold paintEvent. cbn -[Z.mul Z.div Z.max Z.sub].
  pose proof (Z.div_mod (width c - QImage.width (image c)) 2 ltac:(lia)) as Hx.
  pose proof (Z.mod_pos_bound (width c - QImage.width (image c)) 2 ltac:(lia)).
  pose proof (Z.div_mod (height c - QImage.height (image c)) 2 ltac:(lia)) as Hy.
  pose proof (Z.mod_pos_bound (height c - QImage.height (image c)) 2 ltac:(lia)).
  repeat split; lia.
Qed.

(** ** The selection rectangle *)



(** ** Pixels of the whole-image operations *)

Lemma pixel_mirrored (i : QImage.t) (horizontal vertical : bool) (px py : Z) :
  QImage.pixel (QImage.mirrored i horizontal vertical) px py
  = QImage.pixel i
      (if horizontal then QImage.width i - 1 - px else px)
      (if vertical then QImage.height i - 1 - py else py).
Proof.
  unfold QImage.pixel at 1.
  cbn [QImage.mirrored QImage.data QImage.format]. apply pixel_pixel.
Qed.

Lemma pixel_rotated90 (i : QImage.t) (px py : Z) :
  QImage.pixel (QImage.rotated90 i) px py
  = QImage.pixel i py (QImage.height i - 1 - px).
Proof.
  unfold QImage.pixel at 1.
  cbn [QImage.rotated90 QImage.data QImage.format]. apply pixel_pixel.
Qed.

Lemma pixel_rotated270 (i : QImage.t) (px py : Z) :
  QImage.pixel (QImage.rotated270 i) px py
  = QImage.pixel i (QImage.width i - 1 - py) px.
Proof.
  unfold QImage.pixel at 1.
  cbn [QImage.rotated270 QImage.data QImage.format]. apply pixel_pixel.
Qed.

Lemma pixel_fill_white (i : QImage.t) (px py : Z) :
  QImage.pixel (QImage.fill i QRgb.white) px py = QRgb.white.
Proof.
  unfold QImage.pixel. cbn [QImage.fill QImage.data QImage.format].
  destruct (QImage.format i); reflexivity.
Qed.

(** The display image a whole-image command leaves. *)
Lemma transform_command_image (t : Transform) (a : App) :
  QImage.isNull (image (canvas a)) = false ->
  image (canvas (transform_command t a)) = transformed t (image (canvas a)).
Proof.
  intros Hnull.
  destruct t as [ | [w|] [h|] | | | | ]; simpl;
    unfold crop_image, resize_image, rotate_image_90, rotate_image_90_cc,
      flip_vertical, flip_horizontal;
    rewrite Hnull; reflexivity.
Qed.

Lemma isNull_rotated (i : QImage.t) :
  QImage.isNull (QImage.rotated90 i) = QImage.isNull i
  /\ QImage.isNull (QImage.rotated270 i) = QImage.isNull i.
Proof. unfold QImage.isNull. simpl. split; apply orb_comm. Qed.

(** ** New file *)

(** X3: [new_file] (through [clear_canvas]) leaves every pixel of the
    display image and of the original image white and the selection
    engine idle with nothing selected and no move in progress.  The
    original image becomes the filled display image, so it takes the size
    of the display image, and the scale is kept. *)
Theorem new_file_blanks_canvas (a : App) :
  let c' := canvas (new_file a) in
  (forall px py,
     QImage.pixel (image c') px py = QRgb.white
     /\ QImage.pixel (original_image c') px py = QRgb.white)
  /\ original_image c' = image c'
  /\ QImage.width (original_image c') = QImage.width (image (canvas a))
  /\ QImage.height (original_image c') = QImage.height (image (canvas a))
  /\ current_scale c' = current_scale (canvas a)
  /\ phase c' = Idle
  /\ selection_path c' = []
  /\ selection_start c' = None
  /\ selected_area c' = None
  /\ is_moving_selection c' = false
  /\ clipboard (new_file a) = clipboard a
  /\ status (new_file a) = status a ++ ["New file created."%string].
Proof.
  cbv zeta. split; [|repeat split].
  intros px py. unfold new_file, clear_canvas.
  cbn [canvas emit with_canvas image original_image with_image
         with_original_image with_selected_area with_selection_start
         with_selection_path with_drawing_selection with_is_moving_selection].
  split; apply pixel_fill_white.
Qed.

(** ** Flips and quarter turns *)

(** X4: on a display image that is not null, a vertical flip shows row
    [height - 1 - y] at row [y] and a horizontal flip column
    [width - 1 - x] at column [x]; each flip done twice gives back every
    pixel and the size, and the two flips commute. *)
Theorem flips_are_involutions (a : App) :
  QImage.isNull (image (canvas a)) = false ->
  let img := image (canvas a) in
  let v := image (canvas (flip_vertical a)) in
  let h := image (canvas (flip_horizontal a)) in
  let vv := image (canvas (flip_vertical (flip_vertical a))) in
  let hh := image (canvas (flip_horizontal (flip_horizontal a))) in
  let vh := image (canvas (flip_horizontal (flip_vertical a))) in
  let hv := image (canvas (flip_vertical (flip_horizontal a))) in
  (forall px py,
     QImage.pixel v px py = QImage.pixel img px (QImage.height img - 1 - py)
     /\ QImage.pixel h px py = QImage.pixel img (QImage.width img - 1 - px) py
     /\ QImage.pixel vv px py = QImage.pixel img px py
     /\ QImage.pixel hh px py = QImage.pixel img px py
     /\ QImage.pixel vh px py = QImage.pixel hv px py)
  /\ QImage.width vv = QImage.width img /\ QImage.height vv = QImage.height img
  /\ QImage.width hh = QImage.width img /\ QImage.height hh = QImage.height img.
Proof.
  intros Hnull.
  pose proof (transform_command_image FlipVertical a Hnull) as Hv.
  pose proof (transform_command_image FlipHorizontal a Hnull) as Hh.
  cbn [transform_command transformed] in Hv, Hh.
  assert (Hnv : QImage.isNull (image (canvas (flip_vertical a))) = false)
    by (rewrite Hv; exact Hnull).
  assert (Hnh : QImage.isNull (image (canvas (flip_horizontal a))) = false)
    by (rewrite Hh; exact Hnull).
  pose proof (transform_command_image FlipVertical _ Hnv) as Hvv.
  pose proof (transform_command_image FlipHorizontal _ Hnh) as Hhh.
  pose proof (transform_command_image FlipHorizontal _ Hnv) as Hvh.
  pose proof (transform_command_image FlipVertical _ Hnh) as Hhv.
  cbn [transform_command transformed] in Hvv, Hhh, Hvh, Hhv.
  cbv zeta. rewrite Hvv, Hhh, Hvh, Hhv, Hv, Hh.
  split; [|repeat split].
  intros px py. rewrite !pixel_mirrored.
  cbn [QImage.mirrored QImage.width QImage.height].
  repeat split; f_equal; lia.
Qed.

Lemma flips_are_involutions_witness :
  QImage.pixel (image (canvas (flip_vertical chequered_app))) 1 0
  = QImage.pixel chequered 1 2
  /\ QImage.pixel
       (image (canvas (flip_vertical (flip_vertical chequered_app)))) 1 0
     = QImage.pixel chequered 1 0.
Proof.
  destruct (flips_are_involutions chequered_app eq_refl) as [Hpix _].
  destruct (Hpix 1 0) as (Hv & _ & Hvv & _).
  split; [exact Hv|exact Hvv].
Defined.

(** X5: on a display image that is not null, a quarter turn clockwise
    swaps width and height and shows pixel [(y, height - 1 - x)] at
    [(x, y)]; a turn one way followed by a turn the other way gives back
    every pixel and the size; three turns clockwise are one turn
    counterclockwise, and four are none. *)
Theorem quarter_turns_compose (a : App) :
  QImage.isNull (image (canvas a)) = false ->
  let img := image (canvas a) in
  let cw x := rotate_image_90 x in
  let ccw x := rotate_image_90_cc x in
  let shown x := image (canvas x) in
  QImage.width (shown (cw a)) = QImage.height img
  /\ QImage.height (shown (cw a)) = QImage.width img
  /\ QImage.width (shown (ccw (cw a))) = QImage.width img
  /\ QImage.height (shown (ccw (cw a))) = QImage.height img
  /\ (forall px py,
        QImage.pixel (shown (cw a)) px py
        = QImage.pixel img py (QImage.height img - 1 - px)
        /\ QImage.pixel (shown (ccw (cw a))) px py = QImage.pixel img px py
        /\ QImage.pixel (shown (cw (ccw a))) px py = QImage.pixel img px py
        /\ QImage.pixel (shown (cw (cw (cw a)))) px py
           = QImage.pixel (shown (ccw a)) px py
        /\ QImage.pixel (shown (cw (cw (cw (cw a))))) px py
           = QImage.pixel img px py).
Proof.
  intros Hnull. cbv zeta.
  assert (Hstep : forall x,
            QImage.isNull (image (canvas x)) = false ->
            image (canvas (rotate_image_90 x)) = QImage.rotated90 (image (canvas x))
            /\ image (canvas (rotate_image_90_cc x))
               = QImage.rotated270 (image (canvas x))
            /\ QImage.isNull (image (canvas (rotate_image_90 x))) = false
            /\ QImage.isNull (image (canvas (rotate_image_90_cc x))) = false).
  { intros x Hx.
    pose proof (transform_command_image Rotate90 x Hx) as H1.
    pose proof (transform_command_image Rotate90cc x Hx) as H2.
    cbn [transform_command transformed] in H1, H2.
    rewrite H1, H2. destruct (isNull_rotated (image (canvas x))) as [-> ->].
    auto. }
  destruct (Hstep a Hnull) as (H1 & H1' & N1 & N1').
  destruct (Hstep _ N1) as (H2 & H2' & N2 & _).
  destruct (Hstep _ N1') as (H2b & _ & _ & _).
  destruct (Hstep _ N2) as (H3 & _ & N3 & _).
  destruct (Hstep _ N3) as (H4 & _ & _ & _).
  rewrite H4, H3, H2b, H2', H2, H1', H1.
  do 4 (split; [reflexivity|]).
  intros px py.
  rewrite !pixel_rotated90, !pixel_rotated270, ?pixel_rotated90.
  cbn [QImage.rotated90 QImage.rotated270 QImage.width QImage.height].
  repeat split; f_equal; lia.
Qed.

Lemma quarter_turns_compose_witness :
  QImage.width (image (canvas (rotate_image_90 chequered_app))) = 3
  /\ QImage.pixel (image (canvas (rotate_image_90 chequered_app))) 0 0
     = QImage.pixel chequered 0 2
  /\ QImage.pixel
       (image (canvas (rotate_image_90_cc (rotate_image_90 chequered_app))))
       3 1
     = QImage.pixel chequered 3 1.
Proof.
  destruct (quarter_turns_compose chequered_app eq_refl)
    as (Hw & _ & _ & _ & Hpix).
  destruct (Hpix 0 0) as (Hcw & _).
  destruct (Hpix 3 1) as (_ & Hback & _).
  split; [exact Hw|]. split; [exact Hcw|exact Hback].
Defined.

(** ** Crop and resize *)

(** X6: on a display image of size w x h that is not null, [crop_image]
    leaves the centred square of side min(w, h): the square lies within
    the image, its pixels are those of the image, and cropping a second
    time changes neither the size nor a pixel. *)
Theorem crop_image_takes_centre_square (a : App) :
  QImage.isNull (image (canvas a)) = false ->
  let img := image (canvas a) in
  let side := Z.min (QImage.width img) (QImage.height img) in
  let left := (QImage.width img - side) / 2 in
  let top := (QImage.height img - side) / 2 in
  let once := image (canvas (crop_image a)) in
  let twice := image (canvas (crop_image (crop_image a))) in
  QImage.width once = side /\ QImage.height once = side
  /\ 0 <= left /\ left + side <= QImage.width img
  /\ 0 <= top /\ top + side <= QImage.height img
  /\ QImage.width twice = side /\ QImage.height twice = side
  /\ (forall i j,
        0 <= i < side -> 0 <= j < side ->
        QImage.pixel once i j = QImage.pixel img (left + i) (top + j)
        /\ QImage.pixel twice i j = QImage.pixel once i j).
Proof.
  intros Hnull img side left top once twice.
  assert (Hpos : 0 < QImage.width img /\ 0 < QImage.height img).
  { unfold QImage.isNull in Hnull. fold img in Hnull.
    apply orb_false_elim in Hnull as [Hw Hh].
    apply Z.leb_gt in Hw, Hh. auto. }
  assert (Hside : 0 < side) by (unfold side; lia).
  assert (Hcopy : forall (i : QImage.t) x y,
            QImage.isNull i = false ->
            QImage.copy i (QRect.mk x y side side)
            = QImage.mk side side (QImage.format i)
                (fun px py =>
                   if QImage.inside i (x + px) (y + py)
                   then QImage.pixel i (x + px) (y + py)
                   else QRgb.transparent)).
  { intros i x y Hi. unfold QImage.copy, QRect.isNull. rewrite Hi.
    cbn [QRect.width QRect.height QRect.x QRect.y].
    destruct (Z.eqb_spec side 0); [lia|].
    destruct (Z.leb_spec side 0); [lia|]. reflexivity. }
  assert (Honce : once = QImage.copy img (QRect.mk left top side side)).
  { exact (transform_command_image Crop a Hnull). }
  rewrite Hcopy in Honce by exact Hnull.
  assert (Hnull1 : QImage.isNull (image (canvas (crop_image a))) = false).
  { fold once. rewrite Honce. unfold QImage.isNull. simpl.
    destruct (Z.leb_spec side 0); [lia|reflexivity]. }
  assert (Hw : QImage.width once = side) by (rewrite Honce; reflexivity).
  assert (Hh : QImage.height once = side) by (rewrite Honce; reflexivity).
  assert (Htwice : twice = QImage.copy once (QRect.mk 0 0 side side)).
  { pose proof (transform_command_image Crop _ Hnull1) as H.
    cbn [transform_command transformed] in H. fold once in H. fold twice in H.
    rewrite H, Hw, Hh, Z.min_id, Z.sub_diag. reflexivity. }
  rewrite Hcopy in Htwice by exact Hnull1.
  pose proof (Z.div_mod (QImage.width img - side) 2 ltac:(lia)).
  pose proof (Z.mod_pos_bound (QImage.width img - side) 2 ltac:(lia)).
  pose proof (Z.div_mod (QImage.height img - side) 2 ltac:(lia)).
  pose proof (Z.mod_pos_bound (QImage.height img - side) 2 ltac:(lia)).
  split; [exact Hw|]. split; [exact Hh|].
  split; [unfold left, side in *; lia|]. split; [unfold left, side in *; lia|].
  split; [unfold top, side in *; lia|]. split; [unfold top, side in *; lia|].
  split; [rewrite Htwice; reflexivity|]. split; [rewrite Htwice; reflexivity|].
  intros i j Hi Hj.
  assert (Hin : QImage.inside img (left + i) (top + j) = true).
  { unfold QImage.inside. rewrite !andb_true_iff, !Z.leb_le, !Z.ltb_lt.
    unfold left, top, side in *. lia. }
  assert (Hin1 : QImage.inside once (0 + i) (0 + j) = true).
  { unfold QImage.inside. rewrite Hw, Hh.
    rewrite !andb_true_iff, !Z.leb_le, !Z.ltb_lt. lia. }
  split.
  - rewrite Honce. unfold QImage.pixel at 1.
    cbn [QImage.data QImage.format]. rewrite Hin. apply pixel_pixel.
  - rewrite Htwice. unfold QImage.pixel at 1.
    cbn [QImage.data QImage.format]. rewrite Hin1. rewrite !Z.add_0_l.
    apply pixel_pixel.
Qed.

Lemma crop_image_takes_centre_square_witness :
  QImage.width (image (canvas (crop_image init_app))) = 600
  /\ QImage.pixel (image (canvas (crop_image init_app))) 0 0
     = QImage.pixel (image init_canvas) 100 0.
Proof.
  destruct (crop_image_takes_centre_square init_app eq_refl)
    as (Hw & _ & _ & _ & _ & _ & _ & _ & Hpix).
  split; [exact Hw|].
  refine (proj1 (Hpix 0 0 _ _)); (split; [discriminate|reflexivity]).
Defined.

(** X7: [resize_image] with both dialogs accepted (each answer at least
    1) sets the widget and the display image to the new size; the old
    display image sits centred on a white ground: beside it every pixel is
    white, under it an opaque pixel is shown as it was.  A cancelled
    dialog changes nothing. *)
Theorem resize_image_centres_on_white (a : App) (new_width new_height : Z) :
  QImage.isNull (image (canvas a)) = false ->
  1 <= new_width ->
  1 <= new_height ->
  let img := image (canvas a) in
  let a' := resize_image a (Some new_width) (Some new_height) in
  let x_offset := (new_width - QImage.width img) / 2 in
  let y_offset := (new_height - QImage.height img) / 2 in
  width (canvas a') = new_width /\ height (canvas a') = new_height
  /\ QImage.width (image (canvas a')) = new_width
  /\ QImage.height (image (canvas a')) = new_height
  /\ (forall px py,
        (QImage.inside img (px - x_offset) (py - y_offset) = false ->
         QImage.pixel (image (canvas a')) px py = QRgb.white)
        /\ (QImage.inside img (px - x_offset) (py - y_offset) = true ->
            QRgb.alpha (QImage.pixel img (px - x_offset) (py - y_offset)) = 255 ->
            QImage.pixel (image (canvas a')) px py
            = QImage.pixel img (px - x_offset) (py - y_offset)))
  /\ (forall answer, resize_image a None answer = a)
  /\ resize_image a (Some new_width) None = a.
Proof.
  intros Hnull Hw Hh img a' x_offset y_offset.
  assert (Hfilled : QImage.filled new_width new_height Format_RGB32 QRgb.white
                    = QImage.mk new_width new_height Format_RGB32
                        (fun _ _ => QRgb.white)).
  { unfold QImage.filled.
    destruct (Z.leb_spec new_width 0); [lia|].
    destruct (Z.leb_spec new_height 0); [lia|]. reflexivity. }
  assert (Himg : image (canvas a')
                 = QImage.drawImage CompositionMode_SourceOver
                     (QImage.mk new_width new_height Format_RGB32
                        (fun _ _ => QRgb.white))
                     (QPoint.mk x_offset y_offset) img).
  { unfold a', resize_image. rewrite Hnull, Hfilled. reflexivity. }
  split; [unfold a', resize_image; rewrite Hnull; reflexivity|].
  split; [unfold a', resize_image; rewrite Hnull; reflexivity|].
  split; [rewrite Himg; reflexivity|]. split; [rewrite Himg; reflexivity|].
  split; [|split].
  - intros px py. rewrite Himg.
    destruct (drawImage_pixel
                (QImage.mk new_width new_height Format_RGB32
                   (fun _ _ => QRgb.white))
                img (QPoint.mk x_offset y_offset) px py)
      as (_ & _ & _ & Hout & Hin).
    cbn [QPoint.x QPoint.y] in Hout, Hin. split.
    + intros H. rewrite (Hout H). reflexivity.
    + intros H Halpha. rewrite (Hin H Halpha).
      cbn [QImage.format QImage.store].
      destruct (QImage.pixel img (px - x_offset) (py - y_offset)) as [al r g b].
      simpl in Halpha. subst al. reflexivity.
  - intros answer. unfold resize_image. rewrite Hnull. reflexivity.
  - unfold resize_image. rewrite Hnull. reflexivity.
Qed.

Lemma resize_image_centres_on_white_witness :
  QImage.width (image (canvas (resize_image chequered_app (Some 6) (Some 5))))
  = 6
  /\ QImage.pixel
       (image (canvas (resize_image chequered_app (Some 6) (Some 5)))) 0 0
     = QRgb.white
  /\ QImage.pixel
       (image (canvas (resize_image chequered_app (Some 6) (Some 5)))) 2 3
     = QImage.pixel chequered 1 2.
Proof.
  assert (H1 : 1 <= 6) by discriminate.
  assert (H2 : 1 <= 5) by discriminate.
  destruct (resize_image_centres_on_white chequered_app 6 5 eq_refl H1 H2)
    as (_ & _ & Hw & _ & Hpix & _).
  split; [exact Hw|]. split.
  - exact (proj1 (Hpix 0 0) eq_refl).
  - exact (proj2 (Hpix 2 3) eq_refl eq_refl).
Defined.

(** ** Scaling to a box *)

(** [scaled] under [Qt.KeepAspectRatio], for an image that is not null and
    a box of at least one pixel each way: the result fits the box, is at
    least one pixel each way, and one of its sides is the side of the
    box. *)
Lemma scaled_fits_box (filter : QImage.t -> Z -> Z -> Z -> Z -> QRgb.t)
  (i : QImage.t) (w h : Z) :
  QImage.isNull i = false ->
  1 <= w -> 1 <= h ->
  let r := QImage.scaled filter i w h in
  1 <= QImage.width r <= w /\ 1 <= QImage.height r <= h
  /\ (QImage.width r = w \/ QImage.height r = h)
  /\ QImage.format r = QImage.format i.
Proof.
  intros Hnull Hw Hh r.
  assert (Hpos : 0 < QImage.width i /\ 0 < QImage.height i).
  { unfold QImage.isNull in Hnull.
    apply orb_false_elim in Hnull as [H1 H2].
    apply Z.leb_gt in H1, H2. auto. }
  destruct Hpos as [Hiw Hih].
  assert (Hsize : exists nw nh,
            QImage.scaled_size i w h = (nw, nh)
            /\ 1 <= nw <= w /\ 1 <= nh <= h /\ (nw = w \/ nh = h)).
  { unfold QImage.scaled_size.
    destruct (Z.eqb_spec (QImage.width i) 0); [lia|].
    destruct (Z.eqb_spec (QImage.height i) 0); [lia|]. simpl.
    rewrite !Z.quot_div_nonneg by nia.
    pose proof (Z.mul_div_le (h * QImage.width i) (QImage.height i) Hih).
    assert (0 <= h * QImage.width i / QImage.height i)
      by (apply Z.div_pos; nia).
    destruct (Z.leb_spec (h * QImage.width i / QImage.height i) w).
    - eexists _, _. split; [reflexivity|]. lia.
    - assert (w * QImage.height i / QImage.width i <= h)
        by (apply Z.div_le_upper_bound; nia).
      assert (0 <= w * QImage.height i / QImage.width i)
        by (apply Z.div_pos; nia).
      eexists _, _. split; [reflexivity|]. lia. }
  destruct Hsize as (nw & nh & Hsz & Hnw & Hnh & Hside).
  unfold r, QImage.scaled. rewrite Hnull, Hsz.
  destruct (Z.ltb_spec w 1); [lia|]. destruct (Z.ltb_spec h 1); [lia|].
  simpl.
  destruct ((nw =? QImage.width i) && (nh =? QImage.height i)) eqn:Hsame.
  - apply andb_prop in Hsame as [E1 E2]. apply Z.eqb_eq in E1, E2.
    rewrite <- E1, <- E2. auto.
  - simpl. auto.
Qed.




(** The sizes [zoom_in] asks for grow by a fifth with each run: on a new
    canvas the first 81 runs return and the 82nd raises. *)
Example zoom_in_raises_at_the_82nd_run :
  (exists a, repeat_command 81 (zoom_in sample_toolkit) init_app = Some a)
  /\ repeat_command 82 (zoom_in sample_toolkit) init_app = None.
Proof.
  split; [|vm_compute; reflexivity].
  assert (Hruns : match repeat_command 81 (zoom_in sample_toolkit) init_app
                  with
                  | Some _ => true
                  | None => false
                  end = true)
    by (vm_compute; reflexivity).
  destruct (repeat_command 81 (zoom_in sample_toolkit) init_app) as [a|];
    [exists a; reflexivity|discriminate Hruns].
Qed.

(** X9: [display_image], [paste_image] and [reset_zoom] each leave a
    display image scaled to the size of the widget as it was before the
    command: it fits that size and matches one side of it.  Loading also
    sets the scale to 1.0, keeps the loaded image as the original image
    and gives the widget the size of the loaded image; a file that cannot
    be read changes nothing but the warnings. *)
Theorem commands_fit_image_to_widget (tk : Toolkit) (a : App)
  (file_path : string) (loaded : QImage.t) :
  1 <= width (canvas a) ->
  1 <= height (canvas a) ->
  let fits (img : QImage.t) :=
    1 <= QImage.width img <= width (canvas a)
    /\ 1 <= QImage.height img <= height (canvas a)
    /\ (QImage.width img = width (canvas a)
        \/ QImage.height img = height (canvas a)) in
  (QImage.isNull loaded = false ->
   let c' := canvas (display_image tk a file_path loaded) in
   fits (image c')
   /\ original_image c' = loaded
   /\ current_scale c' = 1%float
   /\ width c' = QImage.width loaded /\ height c' = QImage.height loaded)
  /\ (QImage.isNull loaded = true ->
      display_image tk a file_path loaded
      = warning "Failed to load the image." a)
  /\ (QImage.isNull (clipboard a) = false ->
      fits (image (canvas (paste_image tk a)))
      /\ original_image (canvas (paste_image tk a)) = original_image (canvas a))
  /\ (QImage.isNull (image (canvas a)) = false ->
      fits (image (canvas (reset_zoom tk a)))
      /\ current_scale (canvas (reset_zoom tk a)) = 1%float
      /\ original_image (canvas (reset_zoom tk a)) = original_image (canvas a)).
Proof.
  intros Hw Hh fits. unfold fits. split; [|split; [|split]].
  - intros Hnull. cbv zeta. unfold display_image. rewrite Hnull.
    cbn [canvas emit with_canvas image original_image current_scale width
           height with_image with_original_image with_current_scale
           with_width with_height].
    assert (Hcopy : QImage.copy loaded QRect.null = loaded)
      by (unfold QImage.copy; rewrite Hnull; reflexivity).
    rewrite Hcopy.
    destruct (scaled_fits_box (smooth tk) loaded _ _ Hnull Hw Hh)
      as (H1 & H2 & H3 & _).
    auto 10.
  - intros Hnull. unfold display_image. rewrite Hnull. reflexivity.
  - intros Hnull. unfold paste_image. rewrite Hnull.
    cbn [canvas emit with_canvas image original_image with_image].
    destruct (scaled_fits_box (smooth tk) (clipboard a) _ _ Hnull Hw Hh)
      as (H1 & H2 & H3 & _).
    auto 10.
  - intros Hnull. unfold reset_zoom. rewrite Hnull.
    cbn [canvas emit with_canvas image original_image current_scale width
           height with_image with_current_scale].
    destruct (scaled_fits_box (smooth tk) (image (canvas a)) _ _ Hnull Hw Hh)
      as (H1 & H2 & H3 & _).
    auto 10.
Qed.

Lemma commands_fit_image_to_widget_witness :
  QImage.width (image (canvas (display_image sample_toolkit init_app
                                 "picture.png" chequered))) = 800
  /\ QImage.height (image (canvas (display_image sample_toolkit init_app
                                     "picture.png" chequered))) = 600
  /\ width (canvas (display_image sample_toolkit init_app "picture.png"
                      chequered)) = 4.
Proof.
  assert (H1 : 1 <= 800) by discriminate.
  assert (H2 : 1 <= 600) by discriminate.
  destruct (commands_fit_image_to_widget sample_toolkit init_app
              "picture.png" chequered H1 H2) as (Hload & _).
  destruct (Hload eq_refl) as (_ & _ & _ & Hw & _).
  split; [reflexivity|]. split; [reflexivity|]. exact Hw.
Defined.

(** ** Pinch *)

(** Two floats that compare equal compare alike with every third one. *)
Lemma SFeqb_compare (A B X : spec_float) :
  SFeqb A B = true ->
  SFcompare X A = SFcompare X B /\ SFcompare A X = SFcompare B X.
Proof.
  unfold SFeqb.
  destruct A as [sa| sa| |sa ma ea], B as [sb| sb| |sb mb eb];
    simpl; try discriminate;
    try (destruct sa; discriminate); try (destruct sb; discriminate).
  - intros _. destruct X; auto.
  - destruct sa, sb; try discriminate; auto.
  - assert (Heq : sa = sb /\ ea = eb /\ ma = mb
                  \/ (match sa, sb with
                      | true, false => Lt
                      | false, true => Gt
                      | false, false =>
                          match ea ?= eb with
                          | Eq => Pos.compare_cont Eq ma mb
                          | Lt => Lt
                          | Gt => Gt
                          end
                      | true, true =>
                          match ea ?= eb with
                          | Eq => CompOpp (Pos.compare_cont Eq ma mb)
                          | Lt => Gt
                          | Gt => Lt
                          end
                      end <> Eq)).
    { destruct sa, sb; try (right; discriminate).
      - destruct (ea ?= eb) eqn:He; try (right; discriminate).
        apply Z.compare_eq in He.
        destruct (Pos.compare_cont Eq ma mb) eqn:Hm;
          try (right; discriminate).
        apply Pos.compare_eq in Hm. auto.
      - destruct (ea ?= eb) eqn:He; try (right; discriminate).
        apply Z.compare_eq in He.
        destruct (Pos.compare_cont Eq ma mb) eqn:Hm;
          try (right; discriminate).
        apply Pos.compare_eq in Hm. auto. }
    destruct Heq as [(-> & -> & ->) | Hne]; [auto|].
    intros H. exfalso. apply Hne.
    match type of H with (match ?v with _ => _ end) = true =>
      destruct v; try discriminate; reflexivity end.
Qed.

Lemma eqb_in_zoom_range (a b : float) :
  PrimFloat.eqb a b = true ->
  in_zoom_range a = true ->
  in_zoom_range b = true.
Proof.
  unfold in_zoom_range.
  rewrite FloatAxioms.eqb_spec, !FloatAxioms.leb_spec. unfold SFleb.
  intros Heq.
  destruct (SFeqb_compare _ _ (Prim2SF 0.1) Heq) as [<- _].
  destruct (SFeqb_compare _ _ (Prim2SF 5.0) Heq) as [_ <-].
  auto.
Qed.

(** X10: whatever the scale was before, a pinch tick (gesture started or
    updated) on an original image that is not null leaves the scale
    within [0.1, 5.0] when [handle_pinch] returns; a finished or cancelled
    gesture, or a null original image, changes nothing.  The original
    image and the selection are never touched. *)
Theorem handle_pinch_restores_zoom_range (tk : Toolkit) (c c' : Canvas)
  (g : QPinchGesture) :
  handle_pinch tk c g = Some c' ->
  (QImage.isNull (original_image c) = false ->
   state g = GestureStarted \/ state g = GestureUpdated ->
   in_zoom_range (current_scale c') = true)
  /\ (QImage.isNull (original_image c) = true
      \/ (state g <> GestureStarted /\ state g <> GestureUpdated) ->
      c' = c)
  /\ original_image c' = original_image c
  /\ selection_path c' = selection_path c
  /\ selected_area c' = selected_area c.
Proof.
  unfold handle_pinch.
  destruct (QImage.isNull (original_image c)) eqn:Hnull.
  { intros [= <-]. repeat split; auto; discriminate. }
  assert (Hactive :
            (let new_scale :=
               Py.max 0.1
                 (Py.min 5.0 (PrimFloat.mul (current_scale c) (scaleFactor g))) in
             if Py.ne new_scale (current_scale c)
             then
               img <- rescaled tk (with_current_scale c new_scale) ;;
               Some (with_image (with_current_scale c new_scale) img)
             else Some c) = Some c' ->
            in_zoom_range (current_scale c') = true
            /\ original_image c' = original_image c
            /\ selection_path c' = selection_path c
            /\ selected_area c' = selected_area c).
  { cbv zeta. unfold Py.ne.
    destruct (PrimFloat.eqb _ (current_scale c)) eqn:Heq; simpl.
    - intros [= <-]. split; [|auto].
      apply (eqb_in_zoom_range _ _ Heq), clamp_in_zoom_range.
    - destruct (rescaled tk _); simpl; [|discriminate].
      intros [= <-]. simpl. split; [apply clamp_in_zoom_range|auto]. }
  destruct (state g) eqn:Hstate.
  1, 4, 5: intros [= <-]; repeat split; auto;
    intros _ [H | H]; discriminate H.
  all: intros H; destruct (Hactive H) as (Hr & Ho & Hp & Ha);
    repeat split; auto;
    intros [H1 | [H1 H2]]; [discriminate H1|contradiction].
Qed.

Lemma handle_pinch_restores_zoom_range_witness :
  in_zoom_range (current_scale zoomed_in_canvas) = false
  /\ exists c',
       handle_pinch sample_toolkit zoomed_in_canvas
         (mkPinch GestureUpdated 1%float) = Some c'
       /\ in_zoom_range (current_scale c') = true.
Proof.
  split; [vm_compute; reflexivity|].
  destruct (handle_pinch sample_toolkit zoomed_in_canvas
              (mkPinch GestureUpdated 1%float)) as [c'|] eqn:Hrun;
    [|vm_compute in Hrun; discriminate Hrun].
  exists c'. split; [reflexivity|].
  destruct (handle_pinch_restores_zoom_range sample_toolkit zoomed_in_canvas
              c' (mkPinch GestureUpdated 1%float) Hrun) as [Hrange _].
  apply Hrange; [vm_compute; reflexivity|right; reflexivity].
Defined.

(** ** Drags *)

Lemma map_path_cons (c : Canvas) (w : QPoint.t) (ws points : list QPoint.t) :
  map_path c (w :: ws) = Some points ->
  exists q qs,
    points = q :: qs
    /\ map_to_scaled_image c w = Some q
    /\ map_path c ws = Some qs.
Proof.
  simpl. intros H.
  apply bind_Some in H as (q & Hq & H).
  apply bind_Some in H as (qs & Hqs & H).
  injection H as <-. eauto.
Qed.

(** The mapping reads the offsets and the scale only. *)
Lemma map_path_ext (c c' : Canvas) (path : list QPoint.t) :
  offset_x c' = offset_x c ->
  offset_y c' = offset_y c ->
  current_scale c' = current_scale c ->
  map_path c' path = map_path c path.
Proof.
  intros Hx Hy Hs. induction path as [|p path IH]; [reflexivity|].
  simpl. unfold map_to_scaled_image. now rewrite Hx, Hy, Hs, IH.
Qed.

Lemma tool_in_path_tools (c : Canvas) :
  tool_in c ["lasso"; "polygon"]%string = true ->
  tool_is c "rect" = false /\ tool_is_None c = false
  /\ tool_is c "erase" = false.
Proof.
  unfold tool_in, tool_is, tool_is_None. simpl.
  destruct (tool c) as [s|]; [|discriminate].
  by_tool s; auto; discriminate.
Qed.

(** X11: a drag with the lasso or the polygon tool records the pointer.
    While the tool is drawing and no selection is being moved, the moves
    of the drag append their mapped points to the selection path, one per
    event and in the order of the events; nothing is dropped and nothing
    else changes. *)
Theorem lasso_drag_records_points (tk : Toolkit) (events : list QMouseEvent) :
  forall (c : Canvas) (points : list QPoint.t),
    tool_in c ["lasso"; "polygon"]%string = true ->
    drawing_selection c = true ->
    is_moving_selection c && has_area c = false ->
    map_path c (map pos events) = Some points ->
    moves tk c events
    = Some (with_selection_path c (selection_path c ++ points)).
Proof.
  induction events as [|event events IH]; intros c points Htool Hdraw Hmove Hmap.
  - simpl in Hmap. injection Hmap as <-. rewrite app_nil_r.
    destruct c; reflexivity.
  - cbn [map] in Hmap.
    apply map_path_cons in Hmap as (q & qs & -> & Hq & Hqs).
    destruct (tool_in_path_tools c Htool) as (Hrect & _ & _).
    cbn [moves]. unfold mouseMoveEvent.
    rewrite Hq. cbn [bind]. rewrite Hmove, Hrect, Htool, Hdraw.
    cbn [andb bind].
    rewrite <- (map_path_ext c (with_selection_path c (selection_path c ++ [q])))
      in Hqs by reflexivity.
    rewrite (IH (with_selection_path c (selection_path c ++ [q])) qs
               Htool Hdraw Hmove Hqs).
    cbn [selection_path with_selection_path]. rewrite <- app_assoc.
    reflexivity.
Qed.

Lemma lasso_drag_records_points_witness :
  moves sample_toolkit lasso_pressed_canvas
    [mkMouse (QPoint.mk 5 6) LeftButton; mkMouse (QPoint.mk 7 9) LeftButton]
  = Some (with_selection_path lasso_pressed_canvas
            [QPoint.mk 3 4; QPoint.mk 5 6; QPoint.mk 7 9]).
Proof.
  exact (lasso_drag_records_points sample_toolkit
           [mkMouse (QPoint.mk 5 6) LeftButton;
            mkMouse (QPoint.mk 7 9) LeftButton]
           lasso_pressed_canvas [QPoint.mk 5 6; QPoint.mk 7 9]
           eq_refl eq_refl eq_refl eq_refl).
Defined.

Lemma last_cons {A : Type} (a d : A) (l : list A) :
  last (a :: l) d = last l a.
Proof.
  revert a d. induction l as [|b l IH]; intros a d; [reflexivity|].
  change (last (a :: b :: l) d) with (last (b :: l) d).
  now rewrite (IH b d), (IH b a).
Qed.

(** X12: a drag with the rectangle tool, while no selection is being
    moved.  From a start other than the origin, after any moves the path
    is the start followed by the mapped point of the last move, so it
    never has more than two points and the start stays put.  From a start
    at the origin (which counts as false in the test of the handler) the
    moves change nothing. *)
Theorem rect_drag_spans_start_to_pointer (tk : Toolkit)
  (events : list QMouseEvent) (start : QPoint.t) :
  forall (c : Canvas) (points : list QPoint.t),
    tool_is c "rect" = true ->
    selection_start c = Some start ->
    is_moving_selection c && has_area c = false ->
    map_path c (map pos events) = Some points ->
    moves tk c events
    = Some (if QPoint.bool start
            then
              match points with
              | [] => c
              | q :: qs => with_selection_path c [start; last qs q]
              end
            else c).
Proof.
  induction events as [|event events IH]; intros c points Htool Hstart Hmove Hmap.
  - simpl in Hmap. injection Hmap as <-. destruct (QPoint.bool start); reflexivity.
  - cbn [map] in Hmap.
    apply map_path_cons in Hmap as (q & qs & -> & Hq & Hqs).
    pose proof (tool_is_rect_not_path_tool c Htool) as Hpath.
    pose proof (tool_is_eq c _ Htool) as Htool'.
    cbn [moves]. unfold mouseMoveEvent.
    rewrite Hq. cbn [bind]. rewrite Hmove, Htool, Hstart, Hpath.
    cbn [truthy andb].
    destruct (QPoint.bool start) eqn:Hbool.
    + cbn [bind].
      rewrite <- (map_path_ext c (with_selection_path c [start; q]))
        in Hqs by reflexivity.
      rewrite (IH (with_selection_path c [start; q]) qs Htool Hstart Hmove Hqs).
      destruct qs as [|q' qs]; [reflexivity|].
      rewrite (last_cons q' q qs). reflexivity.
    + unfold tool_is_None, tool_is. rewrite Htool'. cbn [andb String.eqb].
      simpl. exact (IH c qs Htool Hstart Hmove Hqs).
Qed.

Lemma rect_drag_spans_start_to_pointer_witness :
  moves sample_toolkit (canvas rect_app)
    [mkMouse (QPoint.mk 30 30) LeftButton; mkMouse (QPoint.mk 70 20) LeftButton]
  = Some (with_selection_path (canvas rect_app)
            [QPoint.mk 10 10; QPoint.mk 70 20]).
Proof.
  exact (rect_drag_spans_start_to_pointer sample_toolkit
           [mkMouse (QPoint.mk 30 30) LeftButton;
            mkMouse (QPoint.mk 70 20) LeftButton]
           (QPoint.mk 10 10) (canvas rect_app)
           [QPoint.mk 30 30; QPoint.mk 70 20]
           eq_refl eq_refl eq_refl eq_refl).
Defined.

(** The size asked for the display image reads the scale and the size of
    the original image only. *)
Lemma display_size_ext (c c' : Canvas) :
  QImage.width (original_image c') = QImage.width (original_image c) ->
  QImage.height (original_image c') = QImage.height (original_image c) ->
  current_scale c' = current_scale c ->
  display_size c' = display_size c.
Proof. intros Hw Hh Hs. unfold display_size. now rewrite Hw, Hh, Hs. Qed.

(** X13: a drag with the pencil (no tool) or the eraser, while a stroke is
    in progress and no selection is being moved, with a pen that keeps the
    size of the image it draws on.  The moves draw one connected line on
    the original image: a segment per event, each starting where the one
    before ended, the first at [last_point]; the pencil draws in the brush
    colour and size, the eraser in white and the eraser size.  Afterwards
    [last_point] is the last mapped point, the display image is the
    original image rescaled, and the selection is as it was. *)
Theorem stroke_drag_draws_connected_line (tk : Toolkit)
  (events : list QMouseEvent) (size : Z * Z) :
  (forall i colour w p q,
     QImage.width (drawLine tk i colour w p q) = QImage.width i
     /\ QImage.height (drawLine tk i colour w p q) = QImage.height i) ->
  forall (c : Canvas) (points : list QPoint.t),
    tool c = None \/ tool c = Some "erase"%string ->
    drawing c = true ->
    is_moving_selection c && has_area c = false ->
    display_size c = Some size ->
    map_path c (map pos events) = Some points ->
    let colour := if tool_is_None c then brush_color c else QRgb.white in
    let pen := if tool_is_None c then brush_size c else eraser_size c in
    let drawn := polyline tk (original_image c) colour pen (last_point c) points in
    moves tk c events
    = Some match points with
           | [] => c
           | q :: qs =>
               with_image
                 (with_last_point (with_original_image c drawn) (last qs q))
                 (QImage.scaled (smooth tk) drawn (fst size) (snd size))
           end.
Proof.
  intros Hpen.
  induction events as [|event events IH];
    intros c points Htool Hdraw Hmove Hsize Hmap.
  - simpl in Hmap. injection Hmap as <-. reflexivity.
  - cbn [map] in Hmap.
    apply map_path_cons in Hmap as (q & qs & -> & Hq & Hqs).
    cbv zeta. cbn [moves polyline]. unfold mouseMoveEvent.
    rewrite Hq. cbn [bind]. rewrite Hmove.
    set (colour := if tool_is_None c then brush_color c else QRgb.white).
    set (pen := if tool_is_None c then brush_size c else eraser_size c).
    set (img := drawLine tk (original_image c) colour pen (last_point c) q).
    assert (Hstep :
              (if tool_is c "rect" && truthy (selection_start c)
               then
                 match selection_start c with
                 | Some start => Some (with_selection_path c [start; q])
                 | None => None
                 end
               else if tool_in c ["lasso"; "polygon"]%string && drawing_selection c
               then Some (with_selection_path c (selection_path c ++ [q]))
               else if tool_is_None c && drawing c
               then
                 img0 <-
                   rescaled tk
                     (with_last_point
                        (with_original_image c
                           (drawLine tk (original_image c) (brush_color c)
                              (brush_size c) (last_point c) q)) q) ;;
                 Some
                   (with_image
                      (with_last_point
                         (with_original_image c
                            (drawLine tk (original_image c) (brush_color c)
                               (brush_size c) (last_point c) q)) q) img0)
               else if tool_is c "erase" && drawing c
               then
                 img0 <-
                   rescaled tk
                     (with_last_point
                        (with_original_image c
                           (drawLine tk (original_image c) QRgb.white
                              (eraser_size c) (last_point c) q)) q) ;;
                 Some
                   (with_image
                      (with_last_point
                         (with_original_image c
                            (drawLine tk (original_image c) QRgb.white
                               (eraser_size c) (last_point c) q)) q) img0)
               else Some c)
              = Some (with_image
                        (with_last_point (with_original_image c img) q)
                        (QImage.scaled (smooth tk) img (fst size) (snd size)))).
    { assert (Hsz : forall colour' pen',
                display_size
                  (with_last_point
                     (with_original_image c
                        (drawLine tk (original_image c) colour' pen'
                           (last_point c) q)) q) = Some size).
      { intros colour' pen'. rewrite <- Hsize.
        apply display_size_ext; try reflexivity; apply Hpen. }
      subst img colour pen. unfold rescaled, tool_in, tool_is, tool_is_None.
      destruct Htool as [Ht | Ht]; rewrite Ht; simpl;
        rewrite Hdraw; simpl; rewrite Hsz; reflexivity. }
    rewrite Hstep. cbn [bind].
    set (c1 := with_image (with_last_point (with_original_image c img) q)
                 (QImage.scaled (smooth tk) img (fst size) (snd size))).
    assert (Hsize1 : display_size c1 = Some size).
    { rewrite <- Hsize. apply display_size_ext; try reflexivity; apply Hpen. }
    rewrite <- (map_path_ext c c1) in Hqs by reflexivity.
    rewrite (IH c1 qs Htool Hdraw Hmove Hsize1 Hqs).
    destruct qs as [|q' qs]; [reflexivity|].
    rewrite (last_cons q' q qs). reflexivity.
Qed.

Lemma stroke_drag_draws_connected_line_witness :
  option_map last_point
    (moves sample_toolkit pencil_pressed_canvas
       [mkMouse (QPoint.mk 5 6) LeftButton; mkMouse (QPoint.mk 7 9) LeftButton])
  = Some (QPoint.mk 7 9).
Proof.
  rewrite (stroke_drag_draws_connected_line sample_toolkit
             [mkMouse (QPoint.mk 5 6) LeftButton;
              mkMouse (QPoint.mk 7 9) LeftButton] (800, 600)
             (fun _ _ _ _ _ => conj eq_refl eq_refl)
             pencil_pressed_canvas [QPoint.mk 5 6; QPoint.mk 7 9]
             (or_introl eq_refl) eq_refl eq_refl eq_refl eq_refl).
  reflexivity.
Defined.

(** X14: moving a selection by a drag.  While a selection is being moved,
    the moves leave [selection_start] at the mapped point of the last
    move minus the recorded offset and change nothing else: the path and
    the selected area stay where they were.  The release that follows
    clears the move flag and nothing more. *)
Theorem move_drag_follows_pointer (tk : Toolkit) (events : list QMouseEvent) :
  forall (a : App) (c : Canvas) (points : list QPoint.t),
    is_moving_selection c = true ->
    has_area c = true ->
    map_path c (map pos events) = Some points ->
    let c' :=
      match points with
      | [] => c
      | q :: qs =>
          with_selection_start c
            (Some (QPoint.sub (last qs q) (selection_offset c)))
      end in
    moves tk c events = Some c'
    /\ selection_path c' = selection_path c
    /\ selected_area c' = selected_area c
    /\ original_image c' = original_image c
    /\ mouseReleaseEvent tk (with_canvas a c')
       = Some (with_canvas a (with_is_moving_selection c' false)).
Proof.
  induction events as [|event events IH]; intros a c points Hmove Harea Hmap.
  - simpl in Hmap. injection Hmap as <-. cbv zeta.
    unfold mouseReleaseEvent. simpl. rewrite Hmove. auto.
  - cbn [map] in Hmap.
    apply map_path_cons in Hmap as (q & qs & -> & Hq & Hqs).
    cbv zeta. split; [|split; [|split; [|split]]]; try reflexivity.
    + cbn [moves]. unfold mouseMoveEvent. rewrite Hq. cbn [bind].
      rewrite Hmove, Harea. cbn [andb bind].
      set (c1 := with_selection_start c
                   (Some (QPoint.sub q (selection_offset c)))).
      rewrite <- (map_path_ext c c1) in Hqs by reflexivity.
      destruct (IH a c1 qs Hmove Harea Hqs) as [Hrun _].
      rewrite Hrun. destruct qs as [|q' qs]; [reflexivity|].
      rewrite (last_cons q' q qs). reflexivity.
    + unfold mouseReleaseEvent. simpl. rewrite Hmove. reflexivity.
Qed.

Lemma move_drag_follows_pointer_witness :
  moves sample_toolkit (canvas_after grab_session)
    [mkMouse (QPoint.mk 30 31) LeftButton; mkMouse (QPoint.mk 40 42) LeftButton]
  = Some (with_selection_start (canvas_after grab_session)
            (Some (QPoint.mk 38 39))).
Proof.
  exact (proj1 (move_drag_follows_pointer sample_toolkit
                  [mkMouse (QPoint.mk 30 31) LeftButton;
                   mkMouse (QPoint.mk 40 42) LeftButton]
                  init_app (canvas_after grab_session)
                  [QPoint.mk 30 31; QPoint.mk 40 42]
                  eq_refl eq_refl eq_refl)).
Defined.

(** ** Cutting and pasting the whole image *)

Lemma scaled_same_size (filter : QImage.t -> Z -> Z -> Z -> Z -> QRgb.t)
  (i : QImage.t) :
  QImage.isNull i = false ->
  QImage.scaled filter i (QImage.width i) (QImage.height i) = i.
Proof.
  intros Hnull.
  assert (Hpos : 0 < QImage.width i /\ 0 < QImage.height i).
  { unfold QImage.isNull in Hnull.
    apply orb_false_elim in Hnull as [H1 H2].
    apply Z.leb_gt in H1, H2. auto. }
  destruct Hpos as [Hw Hh].
  unfold QImage.scaled, QImage.scaled_size. rewrite Hnull.
  destruct (Z.ltb_spec (QImage.width i) 1); [lia|].
  destruct (Z.ltb_spec (QImage.height i) 1); [lia|].
  destruct (Z.eqb_spec (QImage.width i) 0); [lia|].
  destruct (Z.eqb_spec (QImage.height i) 0); [lia|].
  cbn [orb].
  rewrite (Z.mul_comm (QImage.height i) (QImage.width i)).
  rewrite Z.quot_mul by lia. rewrite Z.leb_refl.
  rewrite !Z.max_l by lia. rewrite !Z.eqb_refl. reflexivity.
Qed.

(** X15: [cut_image] puts the display image on the clipboard and leaves
    every pixel of the display image white; the original image is not
    touched.  When the display image has the size of the widget,
    [paste_image] right after gives the display image back as it was. *)
Theorem cut_image_then_paste_image_restores (tk : Toolkit) (a : App) :
  QImage.isNull (image (canvas a)) = false ->
  clipboard (cut_image a) = image (canvas a)
  /\ (forall px py,
        QImage.pixel (image (canvas (cut_image a))) px py = QRgb.white)
  /\ original_image (canvas (cut_image a)) = original_image (canvas a)
  /\ original_image (canvas (paste_image tk (cut_image a)))
     = original_image (canvas a)
  /\ (QImage.width (image (canvas a)) = width (canvas a) ->
      QImage.height (image (canvas a)) = height (canvas a) ->
      image (canvas (paste_image tk (cut_image a))) = image (canvas a)).
Proof.
  intros Hnull.
  assert (Hcut : cut_image a
                 = emit "Image cut and cleared."
                     (with_canvas
                        (emit "Image copied to clipboard."
                           (with_clipboard a (image (canvas a))))
                        (with_image (canvas a)
                           (QImage.fill (image (canvas a)) QRgb.white)))).
  { unfold cut_image, copy_image. rewrite Hnull. reflexivity. }
  rewrite Hcut.
  split; [reflexivity|]. split; [intros px py; apply pixel_fill_white|].
  split; [reflexivity|].
  unfold paste_image.
  cbn [clipboard emit with_canvas with_clipboard canvas].
  rewrite Hnull.
  cbn [canvas emit with_canvas image original_image with_image width height].
  split; [reflexivity|].
  intros <- <-. apply scaled_same_size. exact Hnull.
Qed.

Lemma cut_image_then_paste_image_restores_witness :
  image (canvas (paste_image sample_toolkit (cut_image init_app)))
  = image init_canvas.
Proof.
  destruct (cut_image_then_paste_image_restores sample_toolkit init_app
              eq_refl) as (_ & _ & _ & _ & Hback).
  exact (Hback eq_refl eq_refl).
Defined.

(** ** Copy, cut and paste of a selection *)











(** ** Tool names of the menu *)

(** X19: the Tools menu sets the tool names ['pencil'] (Draw) and
    ['brush'] (Brush), which no handler tests for.  Under either name no
    press and no move ever draws: the original image, the display image
    and the stroke state are as before, and the path is never extended;
    a press can only grab or clear a selection. *)
Theorem menu_tool_names_never_draw (tk : Toolkit) (c c' : Canvas)
  (event : QMouseEvent) :
  tool c = Some "pencil"%string \/ tool c = Some "brush"%string ->
  mousePressEvent c event = Some c' \/ mouseMoveEvent tk c event = Some c' ->
  original_image c' = original_image c
  /\ image c' = image c
  /\ drawing c' = drawing c
  /\ last_point c' = last_point c
  /\ drawing_selection c' = drawing_selection c
  /\ (selection_path c' = selection_path c \/ selection_path c' = []).
Proof.
  intros Htool Hrun.
  assert (Hnames : tool_is c "rect" = false
                   /\ tool_in c ["lasso"; "polygon"]%string = false
                   /\ tool_is_None c = false /\ tool_is c "erase" = false).
  { unfold tool_in, tool_is, tool_is_None.
    destruct Htool as [-> | ->]; auto. }
  destruct Hnames as (Hrect & Hpath & Hnone & Herase).
  destruct Hrun as [Hrun | Hrun].
  - unfold mousePressEvent in Hrun.
    apply bind_Some in Hrun as (p & _ & Hrun).
    destruct (negb (QPoint.x p =? -1) && negb (QPoint.y p =? -1));
      [|injection Hrun as <-; auto 10].
    unfold press_at in Hrun.
    apply bind_Some in Hrun as (c1 & Hc1 & Hrun).
    assert (Hc1' : original_image c1 = original_image c
                   /\ image c1 = image c /\ drawing c1 = drawing c
                   /\ last_point c1 = last_point c
                   /\ drawing_selection c1 = drawing_selection c
                   /\ (selection_path c1 = selection_path c
                       \/ selection_path c1 = [])
                   /\ tool c1 = tool c).
    { destruct (has_area c && QRect.contains (get_selection_rect c) p).
      - destruct (selection_start c); [|discriminate].
        injection Hc1 as <-. auto 10.
      - injection Hc1 as <-. auto 10. }
    destruct Hc1' as (H1 & H2 & H3 & H4 & H5 & H6 & H7).
    unfold tool_in, tool_is, tool_is_None in Hrun, Hrect, Hpath, Hnone, Herase.
    rewrite H7 in Hrun. simpl in Hrun, Hrect, Hpath.
    rewrite Hrect in Hrun.
    destruct (tool c) as [s|] eqn:Hs; [|discriminate].
    simpl in Hpath. rewrite Hpath, Herase in Hrun. simpl in Hrun.
    injection Hrun as <-. auto 10.
  - unfold mouseMoveEvent in Hrun.
    apply bind_Some in Hrun as (p & _ & Hrun).
    rewrite Hrect, Hpath, Hnone, Herase in Hrun. simpl in Hrun.
    destruct (is_moving_selection c && has_area c);
      injection Hrun as <-; auto 10.
Qed.

Lemma menu_tool_names_never_draw_witness :
  option_map drawing
    (mousePressEvent (set_tool init_canvas (Some "pencil"%string))
       (mkMouse (QPoint.mk 3 4) LeftButton))
  = Some false.
Proof.
  destruct (mousePressEvent (set_tool init_canvas (Some "pencil"%string))
              (mkMouse (QPoint.mk 3 4) LeftButton)) as [c'|] eqn:Hrun;
    [|vm_compute in Hrun; discriminate Hrun].
  destruct (menu_tool_names_never_draw sample_toolkit
              (set_tool init_canvas (Some "pencil"%string)) c'
              (mkMouse (QPoint.mk 3 4) LeftButton)
              (or_introl eq_refl) (or_introl Hrun))
    as (_ & _ & Hdrawing & _).
  simpl. rewrite Hdrawing. reflexivity.
Defined.

(** ** Release *)






